(** * Cygwin path conversion (src/cygw32.c): a shallow embedding

    The C file converts file names between the POSIX syntax used inside
    Emacs and the native Windows syntax, by delegating to Cygwin's
    [cygwin_conv_path].  Around that call it temporarily changes the
    process's working directory to the buffer's default directory and
    registers an unwind handler that changes back.

    The embedding has three layers:
    - Lisp data ([lisp_string], [Lisp_Object]) and the Lisp runtime
      services the file calls but does not define ([lisp_runtime]);
    - the process state ([kernel]): working directory, descriptor table,
      [errno] and the failures the environment will inject;
    - the functions of cygw32.c, written in a state-and-error monad over
      [world] (kernel, specpdl, and a log of the system calls made). *)

From Stdlib Require Import ZArith Lia.
From stdpp Require Import base option list strings gmap.

Local Open Scope Z_scope.

(** ** Bytes *)

Abbreviation byte := Byte.byte.
Abbreviation NUL := Byte.x00.

(** A C string literal as the bytes it stands for (without terminator). *)
Definition bytes (s : string) : list byte := String.list_byte_of_string s.

(** The C string stored at the start of a memory area: the bytes before the
    first zero byte.  This is what [chdir] reads from its argument. *)
Fixpoint c_string (mem : list byte) : list byte :=
  match mem with
  | [] => []
  | b :: rest => if Byte.eqb b NUL then [] else b :: c_string rest
  end.

(** ** Lisp data *)

(** Modelled from the spec: the string type (lisp.h) is not part of the
    sources.  Section 9 of the spec: a byte buffer with explicit length and
    an explicit multibyte tag.  In memory the data is always followed by one
    zero byte, which [SBYTES] does not count (the comment in [to_unicode]:
    "strings are already terminated with a single zero byte"). *)
Record lisp_string := LispString {
  s_data : list byte;
  s_multibyte : bool
}.

Inductive Lisp_Object :=
| Qnil
| Qt
| Lint (n : Z)
| Lsym (name : string)
| Lstr (s : lisp_string).

Definition SBYTES (s : lisp_string) : Z := Z.of_nat (length (s_data s)).
Definition STRING_MULTIBYTE (s : lisp_string) : bool := s_multibyte s.

(** [SDATA s]: the memory the data pointer addresses, terminator included. *)
Definition SDATA (s : lisp_string) : list byte := s_data s ++ [NUL].

(** [WCSDATA s] is the same address read as [wchar_t *]. *)
Definition WCSDATA (s : lisp_string) : list byte := SDATA s.

Definition STRINGP (o : Lisp_Object) : bool :=
  match o with Lstr _ => true | _ => false end.

Definition NILP (o : Lisp_Object) : bool :=
  match o with Qnil => true | _ => false end.

Definition make_number (n : Z) : Lisp_Object := Lint n.

(** [XFASTINT] is only applied to values built by [make_number]. *)
Definition XFASTINT (o : Lisp_Object) : Z :=
  match o with Lint n => n | _ => 0 end.

(** [build_string] on an ASCII literal gives a unibyte string. *)
Definition build_string (s : string) : lisp_string :=
  {| s_data := bytes s; s_multibyte := false |}.

(** [XSTRING] is only applied after [STRINGP]. *)
Definition XSTRING (o : Lisp_Object) : lisp_string :=
  match o with Lstr s => s | _ => build_string "" end.

(** [DEFSYM (Qutf_16_le, "utf-16le")]: the coding system without a BOM. *)
Definition Qutf_16_le : string := "utf-16le".

(** Conversion types and flags of [cygwin_conv_path], from Cygwin's
    <sys/cygwin.h>. *)
Definition CCP_POSIX_TO_WIN_W : Z := 1.
Definition CCP_WIN_W_TO_POSIX : Z := 3.
Definition CCP_RELATIVE : Z := 256.

(** ** Signals *)

Inductive signal :=
| Sig_error (msg : string)
| Sig_wrong_type_argument (predicate : string) (value : Lisp_Object)
| Sig_args_out_of_range (s : lisp_string) (from to : Z).

Inductive outcome (A : Type) :=
| Ok (a : A)
| Err (s : signal).
Arguments Ok {A} a.
Arguments Err {A} s.

(** ** The process state *)

Definition EBADF : Z := 9.

(** [k_faults] is the environment's schedule: each system call consumes its
    head; a non-zero head makes that call fail with that [errno] value. *)
Record kernel := Kernel {
  k_cwd : list byte;
  k_fds : gmap Z (list byte);
  k_errno : Z;
  k_faults : list Z
}.

Definition next_fault (k : kernel) : Z * kernel :=
  match k_faults k with
  | [] => (0, k)
  | e :: rest =>
      (e, {| k_cwd := k_cwd k; k_fds := k_fds k;
             k_errno := k_errno k; k_faults := rest |})
  end.

Definition set_errno (e : Z) (k : kernel) : kernel :=
  {| k_cwd := k_cwd k; k_fds := k_fds k; k_errno := e; k_faults := k_faults k |}.

Definition set_cwd (d : list byte) (k : kernel) : kernel :=
  {| k_cwd := d; k_fds := k_fds k; k_errno := k_errno k; k_faults := k_faults k |}.

Definition set_fds (fds : gmap Z (list byte)) (k : kernel) : kernel :=
  {| k_cwd := k_cwd k; k_fds := fds; k_errno := k_errno k; k_faults := k_faults k |}.

(** The lowest descriptor number not in use. *)
Fixpoint lowest_free (fds : gmap Z (list byte)) (fuel : nat) (fd : Z) : Z :=
  match fuel with
  | O => fd
  | S n =>
      match fds !! fd with
      | None => fd
      | Some _ => lowest_free fds n (fd + 1)
      end
  end.

(** [open (".", O_RDONLY | O_DIRECTORY)]: a new descriptor for the current
    directory, or -1. *)
Definition sys_open_dot (k : kernel) : Z * kernel :=
  let '(e, k) := next_fault k in
  if e =? 0 then
    let fd := lowest_free (k_fds k) (size (k_fds k)) 0 in
    (fd, set_fds (<[fd := k_cwd k]> (k_fds k)) k)
  else (-1, set_errno e k).

(** A path name resolved against the working directory. *)
Definition resolve (cwd path : list byte) : list byte :=
  match path with
  | b :: _ => if Byte.eqb b Byte.x2f then path else cwd ++ bytes "/" ++ path
  | [] => cwd
  end.

(** [chdir (path)] *)
Definition sys_chdir (path : list byte) (k : kernel) : Z * kernel :=
  let '(e, k) := next_fault k in
  if e =? 0 then (0, set_cwd (resolve (k_cwd k) (c_string path)) k)
  else (-1, set_errno e k).

(** [fchdir (fd)] *)
Definition sys_fchdir (fd : Z) (k : kernel) : Z * kernel :=
  let '(e, k) := next_fault k in
  if e =? 0 then
    match k_fds k !! fd with
    | Some d => (0, set_cwd d k)
    | None => (-1, set_errno EBADF k)
    end
  else (-1, set_errno e k).

(** [close (fd)]: an open descriptor is released even when the call reports
    an error. *)
Definition sys_close (fd : Z) (k : kernel) : Z * kernel :=
  let '(e, k) := next_fault k in
  match k_fds k !! fd with
  | Some _ =>
      let k := set_fds (delete fd (k_fds k)) k in
      if e =? 0 then (0, k) else (-1, set_errno e k)
  | None => (-1, set_errno (if e =? 0 then EBADF else e) k)
  end.

(** ** System calls seen from outside *)

Inductive event :=
| Ev_open (ret : Z)
| Ev_chdir (path : list byte) (ret : Z)
| Ev_fchdir (fd ret : Z)
| Ev_close (fd ret : Z)
| Ev_conv_path (what : Z) (from : list byte) (to_null : bool) (size ret : Z).

(** ** The unwind-protect stack *)

Inductive unwind_handler := H_fchdir_unwind.

Record specbinding := Unwind_protect {
  sb_func : unwind_handler;
  sb_arg : Lisp_Object
}.

Record world := World {
  w_kernel : kernel;
  w_specpdl : list specbinding;   (* innermost entry first *)
  w_log : list event              (* oldest event first *)
}.

(** ** The monad *)

Definition Lisp (A : Type) : Type := world -> outcome A * world.

Definition ret {A} (a : A) : Lisp A := fun w => (Ok a, w).

Definition bind {A B} (m : Lisp A) (f : A -> Lisp B) : Lisp B :=
  fun w =>
    match m w with
    | (Ok a, w') => f a w'
    | (Err s, w') => (Err s, w')
    end.

Notation "'let*' x ':=' m 'in' k" := (bind m (fun x => k))
  (at level 10, x name, m at level 100, k at level 200).
Notation "'let*' ' p ':=' m 'in' k" := (bind m (fun x => let 'p := x in k))
  (at level 10, p pattern, m at level 100, k at level 200).

Definition xsignal {A} (s : signal) : Lisp A := fun w => (Err s, w).

(** Lift a system call, recording it in the log. *)
Definition syscall (call : kernel -> Z * kernel) (ev : Z -> event) : Lisp Z :=
  fun w =>
    let '(r, k) := call (w_kernel w) in
    (Ok r, {| w_kernel := k; w_specpdl := w_specpdl w;
              w_log := w_log w ++ [ev r] |}).

Definition open_dot : Lisp Z := syscall sys_open_dot Ev_open.
Definition chdir (path : list byte) : Lisp Z :=
  syscall (sys_chdir path) (Ev_chdir (c_string path)).
Definition fchdir (fd : Z) : Lisp Z := syscall (sys_fchdir fd) (Ev_fchdir fd).
Definition close (fd : Z) : Lisp Z := syscall (sys_close fd) (Ev_close fd).

Definition errno : Lisp Z := fun w => (Ok (k_errno (w_kernel w)), w).

Definition SPECPDL_INDEX : Lisp nat := fun w => (Ok (length (w_specpdl w)), w).

(** Modelled from the spec: [record_unwind_protect] (eval.c) is not part of
    the sources.  Section 4.1 of the spec: it registers a scoped cleanup; the
    entry goes on top of the specpdl. *)
Definition record_unwind_protect (f : unwind_handler) (arg : Lisp_Object)
  : Lisp unit :=
  fun w =>
    (Ok tt, {| w_kernel := w_kernel w;
               w_specpdl := Unwind_protect f arg :: w_specpdl w;
               w_log := w_log w |}).

(** Modelled from the spec: [error] (eval.c) is not part of the sources.
    Section 7 of the spec: the failure is surfaced to the caller at once,
    with the formatted message; nothing after the call runs. *)
Definition error {A} (msg : string) : Lisp A := xsignal (Sig_error msg).

(** ** Services used but not defined by cygw32.c *)

(** The Lisp runtime: file-name coding, the generic code converter, file-name
    expansion against the buffer's default directory, and what freshly
    allocated string data holds. *)
Record lisp_runtime := LispRuntime {
  ENCODE_FILE : lisp_string -> lisp_string;
  DECODE_FILE : lisp_string -> lisp_string;
  code_convert_string_norecord : lisp_string -> string -> bool -> lisp_string;
  Fexpand_file_name : Lisp_Object -> Lisp_Object -> Lisp_Object;
  Funhandled_file_name_directory : Lisp_Object -> Lisp_Object;
  substring_multibyte : lisp_string -> Z -> Z -> outcome lisp_string;
  uninit : byte
}.

(** What one call of Cygwin's [cygwin_conv_path] answers: the return value,
    the bytes it stores at the destination, and [errno] if it sets it. *)
Record conv_result := ConvResult {
  cr_ret : Z;
  cr_out : list byte;
  cr_errno : option Z
}.

(** The C library: [strerror], and [cygwin_conv_path] as a function of the
    conversion type, the working directory, the source memory, whether the
    destination is NULL, and the size. *)
Record cygwin := Cygwin {
  strerror : Z -> string;
  conv_path : Z -> list byte -> list byte -> bool -> Z -> conv_result
}.

(** [errno] after a call that answered [r]. *)
Definition note_errno (r : conv_result) (k : kernel) : kernel :=
  match cr_errno r with Some e => set_errno e k | None => k end.

(** Storing [out] at the start of the memory area [mem]. *)
Definition write_bytes (out mem : list byte) : list byte :=
  take (length mem) (out ++ drop (length out) mem).

(** The string whose data area now holds [mem]. *)
Definition with_data (s : lisp_string) (mem : option (list byte)) : lisp_string :=
  match mem with
  | Some m => {| s_data := take (length (s_data s)) m;
                 s_multibyte := s_multibyte s |}
  | None => s
  end.

Definition CHECK_STRING (x : Lisp_Object) : Lisp lisp_string :=
  match x with
  | Lstr s => ret s
  | _ => xsignal (Sig_wrong_type_argument "stringp" x)
  end.

Section Cygw32.

Variable rt : lisp_runtime.
Variable os : cygwin.

(** Modelled from the spec: [make_uninit_string] (alloc.c) is not part of
    the sources.  Section 4.4 of the spec: it allocates a string of the given
    number of bytes; the string is unibyte and its bytes are whatever the
    runtime leaves there. *)
Definition make_uninit_string (length : Z) : lisp_string :=
  {| s_data := replicate (Z.to_nat length) (uninit rt); s_multibyte := false |}.

(** Modelled from the spec: [Fsubstring] (fns.c) is not part of the sources.
    Section 4.3 of the spec: an odd-length string that is not marked
    multibyte has its final byte dropped before decoding.  On a unibyte
    string characters are bytes, a negative index counts from the end, and
    indices outside [0 <= from <= to <= size] signal args-out-of-range; a
    multibyte string is left to the runtime. *)
Definition Fsubstring (s : lisp_string) (from to : Z) : Lisp lisp_string :=
  if STRING_MULTIBYTE s then
    match substring_multibyte rt s from to with
    | Ok r => ret r
    | Err e => xsignal e
    end
  else
    let size := SBYTES s in
    let to_char := if to <? 0 then to + size else to in
    let from_char := if from <? 0 then from + size else from in
    if (0 <=? from_char) && (from_char <=? to_char) && (to_char <=? size) then
      ret {| s_data := take (Z.to_nat (to_char - from_char))
                            (drop (Z.to_nat from_char) (s_data s));
             s_multibyte := false |}
    else xsignal (Sig_args_out_of_range s from_char to_char).

(** [cygwin_conv_path (what, from, to, size)]: [to] is the destination
    memory, or [None] for NULL.  Returns the call's value and the
    destination memory afterwards. *)
Definition cygwin_conv_path (what : Z) (from : list byte)
    (to : option (list byte)) (size : Z) : Lisp (Z * option (list byte)) :=
  fun w =>
    let k := w_kernel w in
    let to_null := match to with None => true | Some _ => false end in
    let r := conv_path os what (k_cwd k) from to_null size in
    let k := note_errno r k in
    (Ok (cr_ret r, write_bytes (cr_out r) <$> to),
     {| w_kernel := k; w_specpdl := w_specpdl w;
        w_log := w_log w ++ [Ev_conv_path what from to_null size (cr_ret r)] |}).

(** *** cygw32.c *)

Definition fchdir_unwind (dir_fd : Lisp_Object) : Lisp Lisp_Object :=
  let* _ := fchdir (XFASTINT dir_fd) in
  let* _ := close (XFASTINT dir_fd) in
  ret Qnil.

Definition run_handler (f : unwind_handler) (arg : Lisp_Object)
  : Lisp Lisp_Object :=
  match f with
  | H_fchdir_unwind => fchdir_unwind arg
  end.

(** Modelled from the spec: [unbind_to] and the signal machinery (eval.c) are
    not part of the sources.  Section 4.1 of the spec: the registered cleanup
    runs on exit, normal or error.  [unbind_to (count, value)] pops the
    entries above depth [count], innermost first, running each handler after
    it is popped, and returns [value]. *)
Fixpoint unbind_entries (n : nat) : Lisp unit :=
  match n with
  | O => ret tt
  | S n' =>
      fun w =>
        match w_specpdl w with
        | [] => (Ok tt, w)
        | sb :: rest =>
            (let* _ := run_handler (sb_func sb) (sb_arg sb) in
             unbind_entries n')
              {| w_kernel := w_kernel w; w_specpdl := rest; w_log := w_log w |}
        end
  end.

Definition unbind_to {A} (count : nat) (value : A) : Lisp A :=
  fun w =>
    (let* _ := unbind_entries (length (w_specpdl w) - count) in ret value) w.

(** Modelled from the spec: a signal leaves the function through the handler
    that was established around the call, which unwinds the specpdl to the
    depth it had when the call began (same service as [unbind_to]). *)
Definition catching {A} (m : Lisp A) : Lisp A :=
  fun w =>
    match m w with
    | (Ok a, w') => (Ok a, w')
    | (Err s, w') => (Err s, snd (unbind_to (length (w_specpdl w)) tt w'))
    end.

Definition chdir_to_default_directory : Lisp unit :=
  let* old_cwd_fd := open_dot in
  let* _ :=
    (if old_cwd_fd =? -1 then
       let* e := errno in
       error ("could not open current directory: " +:+ strerror os e)
     else ret tt) in
  let* _ := record_unwind_protect H_fchdir_unwind (make_number old_cwd_fd) in
  let new_cwd :=
    Funhandled_file_name_directory rt
      (Fexpand_file_name rt (Lstr (build_string ".")) Qnil) in
  let new_cwd :=
    if negb (STRINGP new_cwd) then Lstr (build_string "/") else new_cwd in
  let* r := chdir (SDATA (ENCODE_FILE rt (XSTRING new_cwd))) in
  if negb (r =? 0) then
    let* e := errno in
    error ("could not chdir: " +:+ strerror os e)
  else ret tt.

Definition conv_filename_to_w32_unicode (in_ : lisp_string) (absolute_p : Z)
  : Lisp Lisp_Object :=
  let* count := SPECPDL_INDEX in
  let* _ := chdir_to_default_directory in
  let flags := CCP_POSIX_TO_WIN_W in
  let flags := if absolute_p =? 0 then Z.lor flags CCP_RELATIVE else flags in
  let in_ := ENCODE_FILE rt in_ in
  let* '(converted_len, _) := cygwin_conv_path flags (SDATA in_) None 0 in
  let* _ :=
    (if converted_len <? 2 then
       let* e := errno in error ("cygwin_conv_path: " +:+ strerror os e)
     else ret tt) in
  let converted := make_uninit_string (converted_len - 1) in
  let* '(r, mem) :=
    cygwin_conv_path flags (SDATA in_) (Some (SDATA converted)) converted_len in
  let converted := with_data converted mem in
  let* _ :=
    (if negb (r =? 0) then
       let* e := errno in error ("cygwin_conv_path: " +:+ strerror os e)
     else ret tt) in
  unbind_to count (Lstr converted).

Definition conv_filename_from_w32_unicode (in_ : list byte) (absolute_p : Z)
  : Lisp Lisp_Object :=
  let* count := SPECPDL_INDEX in
  let* _ := chdir_to_default_directory in
  let flags := CCP_WIN_W_TO_POSIX in
  let flags := if absolute_p =? 0 then Z.lor flags CCP_RELATIVE else flags in
  let* '(converted_len, _) := cygwin_conv_path flags in_ None 0 in
  let* _ :=
    (if converted_len <? 1 then
       let* e := errno in error ("cygwin_conv_path: " +:+ strerror os e)
     else ret tt) in
  let converted := make_uninit_string (converted_len - 1) in
  let* '(r, mem) :=
    cygwin_conv_path flags in_ (Some (SDATA converted)) converted_len in
  let converted := with_data converted mem in
  let* _ :=
    (if negb (r =? 0) then
       let* e := errno in error ("cygwin_conv_path: " +:+ strerror os e)
     else ret tt) in
  unbind_to count (Lstr (DECODE_FILE rt converted)).

Definition from_unicode (str : Lisp_Object) : Lisp Lisp_Object :=
  let* s := CHECK_STRING str in
  let* s :=
    (if negb (STRING_MULTIBYTE s) && negb (Z.land (SBYTES s) 1 =? 0) then
       Fsubstring s 0 (-1)
     else ret s) in
  ret (Lstr (code_convert_string_norecord rt s Qutf_16_le false)).

(** [to_unicode (str, &buf)]: the returned pair is the [wchar_t *] view and
    the new value of [*buf]. *)
Definition to_unicode (str : lisp_string) : list byte * lisp_string :=
  let buf := code_convert_string_norecord rt str Qutf_16_le true in
  let str := make_uninit_string (SBYTES buf + 1) in
  (* memcpy: the first SBYTES bytes of the encoded string *)
  let str := {| s_data := write_bytes (take (Z.to_nat (SBYTES buf)) (SDATA buf))
                                      (s_data str);
                s_multibyte := s_multibyte str |} in
  (* the byte after them is set to zero *)
  let str := {| s_data := <[Z.to_nat (SBYTES buf) := NUL]> (s_data str);
                s_multibyte := s_multibyte str |} in
  let buf := str in
  (WCSDATA buf, buf).

(** The entry points do not check PATH; it is a string here, as the spec's
    precondition has it.  ABSOLUTE-P is any Lisp object. *)
Definition Fcygwin_convert_path_to_windows (path : lisp_string)
    (absolute_p : Lisp_Object) : Lisp Lisp_Object :=
  let* converted :=
    conv_filename_to_w32_unicode path (if NILP absolute_p then 0 else 1) in
  from_unicode converted.

Definition Fcygwin_convert_path_from_windows (path : lisp_string)
    (absolute_p : Lisp_Object) : Lisp Lisp_Object :=
  let '(in_, path) := to_unicode path in
  conv_filename_from_w32_unicode in_ (if NILP absolute_p then 0 else 1).

End Cygw32.

(** ** Paths up to separator normalization

    Spec side of the round trip (section 8 of the spec): the path that comes
    back may differ from the one that went in by the path-separator
    normalization of the facility.  Two paths are the same up to that
    normalization when they agree once every run of slashes is collapsed to
    a single slash. *)
Fixpoint collapse_separators (s : list byte) : list byte :=
  match s with
  | [] => []
  | a :: rest =>
      match rest with
      | b :: _ =>
          if Byte.eqb a Byte.x2f && Byte.eqb b Byte.x2f
          then collapse_separators rest
          else a :: collapse_separators rest
      | [] => [a]
      end
  end.

Definition same_up_to_separators (a b : lisp_string) : Prop :=
  collapse_separators (s_data a) = collapse_separators (s_data b) /\
  s_multibyte a = s_multibyte b.

(** ** A small concrete environment

    A runtime and a conversion facility simple enough to run: file names are
    ASCII, UTF-16LE puts a zero byte after each character, and the facility
    only exchanges slashes and backslashes, following the two-call sizing
    protocol of [cygwin_conv_path]. *)
Module Sim.

Definition encode16 (s : list byte) : list byte :=
  flat_map (fun b => [b; NUL]) s.

Fixpoint decode16 (s : list byte) : list byte :=
  match s with
  | b :: _ :: rest => b :: decode16 rest
  | _ => []
  end.

(** The wide string at the start of a memory area: the 16-bit units before
    the first zero unit. *)
Fixpoint wc_string (mem : list byte) : list byte :=
  match mem with
  | lo :: hi :: rest =>
      if Byte.eqb lo NUL && Byte.eqb hi NUL then []
      else lo :: hi :: wc_string rest
  | _ => []
  end.

Definition swap_sep (from to : byte) (s : list byte) : list byte :=
  map (fun b => if Byte.eqb b from then to else b) s.

Definition default_directory : Lisp_Object := Lstr (build_string "/tmp/").

Definition rt : lisp_runtime :=
  {| ENCODE_FILE := fun s => {| s_data := s_data s; s_multibyte := false |};
     DECODE_FILE := fun s => s;
     code_convert_string_norecord := fun s _ encodep =>
       {| s_data := if encodep then encode16 (s_data s) else decode16 (s_data s);
          s_multibyte := false |};
     Fexpand_file_name := fun _ _ => default_directory;
     Funhandled_file_name_directory := fun d => d;
     substring_multibyte := fun s from to =>
       Err (Sig_args_out_of_range s from to);
     uninit := Byte.x55 |}.

(** The same runtime when the default directory does not expand to a
    string. *)
Definition rt_no_directory : lisp_runtime :=
  {| ENCODE_FILE := ENCODE_FILE rt;
     DECODE_FILE := DECODE_FILE rt;
     code_convert_string_norecord := code_convert_string_norecord rt;
     Fexpand_file_name := fun _ _ => Qnil;
     Funhandled_file_name_directory := fun d => d;
     substring_multibyte := substring_multibyte rt;
     uninit := uninit rt |}.

Definition ENOENT : Z := 2.
Definition EINVAL : Z := 22.
Definition EACCES : Z := 13.
Definition ENOSPC : Z := 28.

(** The answer for a converted path [out] (terminator included). *)
Definition answer (out : list byte) (to_null : bool) (size : Z) : conv_result :=
  if to_null then
    {| cr_ret := Z.of_nat (length out); cr_out := []; cr_errno := None |}
  else if size <? Z.of_nat (length out) then
    {| cr_ret := -1; cr_out := []; cr_errno := Some ENOSPC |}
  else {| cr_ret := 0; cr_out := out; cr_errno := None |}.

Definition slash_conv (what : Z) (cwd from : list byte) (to_null : bool)
    (size : Z) : conv_result :=
  if Z.land what 3 =? CCP_POSIX_TO_WIN_W then
    answer (encode16 (swap_sep Byte.x2f Byte.x5c (c_string from)) ++ [NUL; NUL])
           to_null size
  else if Z.land what 3 =? CCP_WIN_W_TO_POSIX then
    answer (swap_sep Byte.x5c Byte.x2f (decode16 (wc_string from)) ++ [NUL])
           to_null size
  else {| cr_ret := -1; cr_out := []; cr_errno := Some EINVAL |}.

Definition os : cygwin :=
  {| strerror := fun e =>
       if e =? EACCES then "Permission denied"
       else if e =? ENOENT then "No such file or directory"
       else if e =? EINVAL then "Invalid argument"
       else if e =? ENOSPC then "No space left on device"
       else "Unknown error";
     conv_path := slash_conv |}.

(** A facility that answers the length query with a fixed value and fails
    every filling call. *)
Definition stub (len : Z) : cygwin :=
  {| strerror := strerror os;
     conv_path := fun _ _ _ to_null _ =>
       if to_null then {| cr_ret := len; cr_out := []; cr_errno := None |}
       else {| cr_ret := -1; cr_out := []; cr_errno := Some EINVAL |} |}.

(** A process in [/home/u] with no directory descriptors open, about to see
    the faults [faults]. *)
Definition start (faults : list Z) : world :=
  {| w_kernel := {| k_cwd := bytes "/home/u"; k_fds := ∅;
                    k_errno := 0; k_faults := faults |};
     w_specpdl := [];
     w_log := [] |}.

(** The facility of [os], except that converting to Windows also collapses
    runs of slashes, as the separator normalization of the real facility. *)
Definition normalizing_conv (what : Z) (cwd from : list byte) (to_null : bool)
    (size : Z) : conv_result :=
  if Z.land what 3 =? CCP_POSIX_TO_WIN_W then
    answer (encode16 (swap_sep Byte.x2f Byte.x5c
                        (collapse_separators (c_string from)))
              ++ [NUL; NUL])
           to_null size
  else slash_conv what cwd from to_null size.

Definition os_normalizing : cygwin :=
  {| strerror := strerror os; conv_path := normalizing_conv |}.

Definition foo__bar : lisp_string := build_string "foo//bar".
Definition foo_bar : lisp_string := build_string "foo/bar".
Definition foo_bar_native : lisp_string := build_string "foo\bar".

End Sim.

(** ** Vocabulary of the statements *)

(** The directory [chdir_to_default_directory] changes into: the expanded
    default directory, or the root when that is not a string. *)
Definition target_directory (rt : lisp_runtime) : lisp_string :=
  let new_cwd :=
    Funhandled_file_name_directory rt
      (Fexpand_file_name rt (Lstr (build_string ".")) Qnil) in
  XSTRING (if negb (STRINGP new_cwd) then Lstr (build_string "/") else new_cwd).

(** The events a computation added to the log. *)
Definition events_since (w w' : world) : list event :=
  drop (length (w_log w)) (w_log w').

Definition is_conv_path (e : event) : bool :=
  match e with Ev_conv_path _ _ _ _ _ => true | _ => false end.

Definition conv_path_calls (evs : list event) : list event :=
  filter (fun e => is_conv_path e = true) evs.

Definition event_ret (e : event) : Z :=
  match e with
  | Ev_open r | Ev_chdir _ r | Ev_fchdir _ r | Ev_close _ r
  | Ev_conv_path _ _ _ _ r => r
  end.

Definition conv_path_what (e : event) : option Z :=
  match e with Ev_conv_path what _ _ _ _ => Some what | _ => None end.

(** Descriptors opened and not yet closed after the events [evs], starting
    from the descriptors [live]. *)
Fixpoint live_after (live : list Z) (evs : list event) : list Z :=
  match evs with
  | [] => live
  | Ev_open fd :: rest =>
      live_after (if fd =? -1 then live else fd :: live) rest
  | Ev_close fd _ :: rest =>
      live_after (filter (fun x => x ≠ fd) live) rest
  | _ :: rest => live_after live rest
  end.

(** The largest number of such descriptors at any point of [evs]. *)
Fixpoint live_peak (live : list Z) (evs : list event) : nat :=
  match evs with
  | [] => length live
  | e :: rest =>
      Nat.max (length live) (live_peak (live_after live [e]) rest)
  end.

(** Every [fchdir] in [evs] succeeded. *)
Definition fchdir_ok (evs : list event) : bool :=
  forallb (fun e => match e with Ev_fchdir _ r => r =? 0 | _ => true end) evs.

(** The two entry points, by direction. *)
Inductive direction := To_windows | From_windows.

Definition convert_path (rt : lisp_runtime) (os : cygwin) (d : direction)
    (path : lisp_string) (absolute_p : Lisp_Object) : Lisp Lisp_Object :=
  match d with
  | To_windows => Fcygwin_convert_path_to_windows rt os path absolute_p
  | From_windows => Fcygwin_convert_path_from_windows rt os path absolute_p
  end.

(** Modelled from the spec: the caller's side of [DEFUN (..., 1, 2, 0, ...)]
    (eval.c) is not part of the sources.  An optional argument that the
    caller omits reaches the C function as nil. *)
Definition call_with_optional (f : Lisp_Object -> Lisp Lisp_Object)
    (arg : option Lisp_Object) : Lisp Lisp_Object :=
  f (default Qnil arg).

(** A string without its final byte. *)
Definition without_final_byte (s : lisp_string) : lisp_string :=
  {| s_data := removelast (s_data s); s_multibyte := s_multibyte s |}.

(** The body shared by [conv_filename_to_w32_unicode] and
    [conv_filename_from_w32_unicode]: conversion type [what], least valid
    length [least], source memory [from], and the final wrapping [finish]
    of the filled string. *)
Definition two_call_convert (rt : lisp_runtime) (os : cygwin)
    (what least : Z) (from : list byte) (finish : lisp_string -> Lisp_Object)
    (absolute_p : Z) : Lisp Lisp_Object :=
  let* count := SPECPDL_INDEX in
  let* _ := chdir_to_default_directory rt os in
  let flags := if absolute_p =? 0 then Z.lor what CCP_RELATIVE else what in
  let* '(converted_len, _) := cygwin_conv_path os flags from None 0 in
  let* _ :=
    (if converted_len <? least then
       let* e := errno in error ("cygwin_conv_path: " +:+ strerror os e)
     else ret tt) in
  let converted := make_uninit_string rt (converted_len - 1) in
  let* '(r, mem) :=
    cygwin_conv_path os flags from (Some (SDATA converted)) converted_len in
  let converted := with_data converted mem in
  let* _ :=
    (if negb (r =? 0) then
       let* e := errno in error ("cygwin_conv_path: " +:+ strerror os e)
     else ret tt) in
  unbind_to count (finish converted).

(** The flags the conversions pass to [cygwin_conv_path]. *)
Definition conv_flags (what absolute_p : Z) : Z :=
  if absolute_p =? 0 then Z.lor what CCP_RELATIVE else what.

(** The string a filling call leaves in a fresh string of [len - 1] bytes. *)
Definition filled (rt : lisp_runtime) (len : Z) (out : list byte) : lisp_string :=
  with_data (make_uninit_string rt (len - 1))
    (Some (write_bytes out (SDATA (make_uninit_string rt (len - 1))))).

(** The kernel after the unwind handler ran on descriptor [fd]. *)
Definition after_cleanup (fd : Z) (k : kernel) : kernel :=
  snd (sys_close fd (snd (sys_fchdir fd k))).

Definition cleanup_events (fd : Z) (k : kernel) : list event :=
  [Ev_fchdir fd (fst (sys_fchdir fd k));
   Ev_close fd (fst (sys_close fd (snd (sys_fchdir fd k))))].

(** What each entry point hands to the shared body. *)
Definition direction_what (d : direction) : Z :=
  match d with
  | To_windows => CCP_POSIX_TO_WIN_W
  | From_windows => CCP_WIN_W_TO_POSIX
  end.

Definition least_length (d : direction) : Z :=
  match d with To_windows => 2 | From_windows => 1 end.

Definition source_memory (rt : lisp_runtime) (d : direction)
    (path : lisp_string) : list byte :=
  match d with
  | To_windows => SDATA (ENCODE_FILE rt path)
  | From_windows => fst (to_unicode rt path)
  end.

(** What each entry point returns for the filled string [converted]. *)
Definition finish (rt : lisp_runtime) (d : direction)
    (converted : lisp_string) : Lisp_Object :=
  match d with
  | To_windows =>
      Lstr (code_convert_string_norecord rt
              (if negb (STRING_MULTIBYTE converted) && Z.odd (SBYTES converted)
               then without_final_byte converted else converted)
              Qutf_16_le false)
  | From_windows => Lstr (DECODE_FILE rt converted)
  end.

(** The C truth value the entry points pass for ABSOLUTE-P. *)
Definition absolute_flag (absolute_p : Lisp_Object) : Z :=
  if NILP absolute_p then 0 else 1.

(** How many times [evs] tried to change back by descriptor. *)
Definition is_fchdir (e : event) : bool :=
  match e with Ev_fchdir _ _ => true | _ => false end.

Definition restore_attempts (evs : list event) : nat :=
  length (filter (fun e => is_fchdir e = true) evs).

(** The facility follows the sizing protocol at this input: asked for the
    length it answers the length of [out]; given that much room it stores
    [out] and answers 0.  [out] includes the terminator. *)
Definition converts (os : cygwin) (what : Z) (cwd from out : list byte) : Prop :=
  cr_ret (conv_path os what cwd from true 0) = Z.of_nat (length out) /\
  cr_ret (conv_path os what cwd from false (Z.of_nat (length out))) = 0 /\
  cr_out (conv_path os what cwd from false (Z.of_nat (length out))) = out.

(** Every [chdir] in [evs] succeeded. *)
Definition chdir_ok (evs : list event) : bool :=
  forallb (fun e => match e with Ev_chdir _ r => r =? 0 | _ => true end) evs.

(** The directory the process is in between the guard's [chdir] and the
    cleanup, when the process starts in kernel state [k]. *)
Definition conversion_directory (rt : lisp_runtime) (k : kernel) : list byte :=
  resolve (k_cwd k) (c_string (SDATA (ENCODE_FILE rt (target_directory rt)))).

(** The bytes each entry point hands to the facility as its source. *)
Definition source_bytes (rt : lisp_runtime) (d : direction)
    (path : lisp_string) : list byte :=
  match d with
  | To_windows => s_data (ENCODE_FILE rt path) ++ [NUL]
  | From_windows =>
      s_data (code_convert_string_norecord rt path Qutf_16_le true)
        ++ [NUL; NUL]
  end.

(** The messages [error] is called with in cygw32.c, up to the [%s]. *)
Definition error_prefixes : list string :=
  ["could not open current directory: "; "could not chdir: ";
   "cygwin_conv_path: "].

(** ** The kernel model *)

Section Kernel.

Implicit Types (k : kernel) (fd : Z).

Lemma next_fault_cwd k : k_cwd (snd (next_fault k)) = k_cwd k.
Proof. unfold next_fault. by destruct (k_faults k). Qed.

Lemma next_fault_fds k : k_fds (snd (next_fault k)) = k_fds k.
Proof. unfold next_fault. by destruct (k_faults k). Qed.

Lemma sys_open_dot_cwd k : k_cwd (snd (sys_open_dot k)) = k_cwd k.
Proof.
  unfold sys_open_dot. pose proof (next_fault_cwd k) as H.
  destruct (next_fault k) as [e k1]; simpl in *.
  by destruct (e =? 0).
Qed.

Lemma sys_open_dot_saved k fd :
  fst (sys_open_dot k) = fd -> fd ≠ -1 ->
  k_fds (snd (sys_open_dot k)) !! fd = Some (k_cwd k).
Proof.
  unfold sys_open_dot. pose proof (next_fault_cwd k) as H.
  destruct (next_fault k) as [e k1]; simpl in *.
  destruct (e =? 0); simpl; intros <- Hfd; [|done].
  by rewrite lookup_insert_eq, H.
Qed.

Lemma sys_chdir_fds path k : k_fds (snd (sys_chdir path k)) = k_fds k.
Proof.
  unfold sys_chdir. pose proof (next_fault_fds k) as H.
  destruct (next_fault k) as [e k1]; simpl in *.
  by destruct (e =? 0).
Qed.

Lemma sys_chdir_failed path k :
  fst (sys_chdir path k) ≠ 0 -> k_cwd (snd (sys_chdir path k)) = k_cwd k.
Proof.
  unfold sys_chdir. pose proof (next_fault_cwd k) as H.
  destruct (next_fault k) as [e k1]; simpl in *.
  by destruct (e =? 0).
Qed.

Lemma sys_fchdir_done fd k d :
  k_fds k !! fd = Some d -> fst (sys_fchdir fd k) = 0 ->
  k_cwd (snd (sys_fchdir fd k)) = d.
Proof.
  unfold sys_fchdir. pose proof (next_fault_fds k) as H.
  destruct (next_fault k) as [e k1]; simpl in *.
  destruct (e =? 0); simpl; [|done].
  rewrite H. by intros ->.
Qed.

Lemma sys_close_cwd fd k : k_cwd (snd (sys_close fd k)) = k_cwd k.
Proof.
  unfold sys_close. pose proof (next_fault_cwd k) as H.
  destruct (next_fault k) as [e k1]; simpl in *.
  destruct (k_fds k1 !! fd); [by destruct (e =? 0)|done].
Qed.

Lemma sys_close_released fd k : k_fds (snd (sys_close fd k)) !! fd = None.
Proof.
  unfold sys_close.
  destruct (next_fault k) as [e k1]; simpl in *.
  destruct (k_fds k1 !! fd) eqn:E; simpl; [|done].
  destruct (e =? 0); simpl; apply lookup_delete_eq.
Qed.

End Kernel.

(** ** Running the functions of cygw32.c *)

Section Runs.

Variable rt : lisp_runtime.
Variable os : cygwin.

Implicit Types (w : world) (k : kernel) (fd : Z).

Lemma note_errno_cwd r k : k_cwd (note_errno r k) = k_cwd k.
Proof. unfold note_errno. by destruct (cr_errno r). Qed.

Lemma note_errno_fds r k : k_fds (note_errno r k) = k_fds k.
Proof. unfold note_errno. by destruct (cr_errno r). Qed.

Lemma events_since_app w k sp evs :
  events_since w (World k sp (w_log w ++ evs)) = evs.
Proof. unfold events_since; simpl. by rewrite drop_app_length. Qed.

Lemma fchdir_unwind_run dir_fd w :
  fchdir_unwind dir_fd w =
    (Ok Qnil,
     World (after_cleanup (XFASTINT dir_fd) (w_kernel w)) (w_specpdl w)
           (w_log w ++ cleanup_events (XFASTINT dir_fd) (w_kernel w))).
Proof.
  unfold fchdir_unwind, bind, fchdir, close, syscall, ret, after_cleanup,
    cleanup_events.
  destruct (sys_fchdir (XFASTINT dir_fd) (w_kernel w)) as [r1 k1]; simpl.
  destruct (sys_close (XFASTINT dir_fd) k1) as [r2 k2]; simpl.
  by rewrite <- app_assoc.
Qed.

Lemma unbind_to_level {A} (v : A) w :
  unbind_to (length (w_specpdl w)) v w = (Ok v, w).
Proof.
  unfold unbind_to, bind. rewrite Nat.sub_diag. reflexivity.
Qed.

Lemma unbind_to_here {A} (v : A) k sp log :
  unbind_to (length sp) v (World k sp log) = (Ok v, World k sp log).
Proof. apply (unbind_to_level v (World k sp log)). Qed.

Lemma unbind_to_guard {A} (v : A) k arg sp log :
  unbind_to (length sp) v (World k (Unwind_protect H_fchdir_unwind arg :: sp) log) =
    (Ok v, World (after_cleanup (XFASTINT arg) k) sp
                 (log ++ cleanup_events (XFASTINT arg) k)).
Proof.
  unfold unbind_to, bind. cbn [w_specpdl length].
  replace (S (length sp) - length sp)%nat with 1%nat by lia.
  cbn [unbind_entries w_specpdl w_kernel w_log sb_func sb_arg run_handler].
  unfold bind. rewrite fchdir_unwind_run. reflexivity.
Qed.

Lemma conv_filename_to_w32_unicode_shape in_ a :
  conv_filename_to_w32_unicode rt os in_ a =
    two_call_convert rt os CCP_POSIX_TO_WIN_W 2 (SDATA (ENCODE_FILE rt in_))
      Lstr a.
Proof. reflexivity. Qed.

Lemma conv_filename_from_w32_unicode_shape in_ a :
  conv_filename_from_w32_unicode rt os in_ a =
    two_call_convert rt os CCP_WIN_W_TO_POSIX 1 in_
      (fun converted => Lstr (DECODE_FILE rt converted)) a.
Proof. reflexivity. Qed.

Lemma chdir_to_default_directory_run w :
  let o := sys_open_dot (w_kernel w) in
  let dir := SDATA (ENCODE_FILE rt (target_directory rt)) in
  let c := sys_chdir dir (snd o) in
  chdir_to_default_directory rt os w =
    if fst o =? -1 then
      (Err (Sig_error ("could not open current directory: "
                       +:+ strerror os (k_errno (snd o)))),
       World (snd o) (w_specpdl w) (w_log w ++ [Ev_open (fst o)]))
    else
      (if fst c =? 0 then Ok tt
       else Err (Sig_error ("could not chdir: "
                            +:+ strerror os (k_errno (snd c)))),
       World (snd c)
             (Unwind_protect H_fchdir_unwind (Lint (fst o)) :: w_specpdl w)
             (w_log w ++ [Ev_open (fst o); Ev_chdir (c_string dir) (fst c)])).
Proof.
  intros o dir c. subst o dir c.
  unfold chdir_to_default_directory, bind, open_dot, chdir, syscall, errno,
    error, xsignal, record_unwind_protect, ret, make_number.
  fold (target_directory rt).
  destruct (sys_open_dot (w_kernel w)) as [fd k1]; simpl.
  destruct (fd =? -1); simpl; [reflexivity|].
  destruct (sys_chdir _ k1) as [r k2]; simpl.
  rewrite <- app_assoc; simpl.
  destruct (r =? 0); reflexivity.
Qed.

Lemma two_call_convert_run what least from finish a w :
  let o := sys_open_dot (w_kernel w) in
  let fd := fst o in
  let dir := SDATA (ENCODE_FILE rt (target_directory rt)) in
  let c := sys_chdir dir (snd o) in
  let flags := conv_flags what a in
  let q := conv_path os flags (k_cwd (snd c)) from true 0 in
  let k3 := note_errno q (snd c) in
  let f := conv_path os flags (k_cwd k3) from false (cr_ret q) in
  let k4 := note_errno f k3 in
  let sp := Unwind_protect H_fchdir_unwind (Lint fd) :: w_specpdl w in
  let e1 := [Ev_open fd] in
  let e2 := [Ev_open fd; Ev_chdir (c_string dir) (fst c)] in
  let e3 := e2 ++ [Ev_conv_path flags from true 0 (cr_ret q)] in
  let e4 := e3 ++ [Ev_conv_path flags from false (cr_ret q) (cr_ret f)] in
  two_call_convert rt os what least from finish a w =
    if fd =? -1 then
      (Err (Sig_error ("could not open current directory: "
                       +:+ strerror os (k_errno (snd o)))),
       World (snd o) (w_specpdl w) (w_log w ++ e1))
    else if negb (fst c =? 0) then
      (Err (Sig_error ("could not chdir: " +:+ strerror os (k_errno (snd c)))),
       World (snd c) sp (w_log w ++ e2))
    else if cr_ret q <? least then
      (Err (Sig_error ("cygwin_conv_path: " +:+ strerror os (k_errno k3))),
       World k3 sp (w_log w ++ e3))
    else if negb (cr_ret f =? 0) then
      (Err (Sig_error ("cygwin_conv_path: " +:+ strerror os (k_errno k4))),
       World k4 sp (w_log w ++ e4))
    else
      (Ok (finish (filled rt (cr_ret q) (cr_out f))),
       World (after_cleanup fd k4) (w_specpdl w)
             (w_log w ++ e4 ++ cleanup_events fd k4)).
Proof.
  intros o fd dir c flags q k3 f k4 sp e1 e2 e3 e4.
  unfold two_call_convert. unfold bind at 1. unfold SPECPDL_INDEX at 1.
  unfold bind at 1. rewrite chdir_to_default_directory_run.
  fold o; fold fd; fold dir; fold c.
  destruct (fd =? -1); [reflexivity|].
  destruct (fst c =? 0); simpl; [|reflexivity].
  fold (conv_flags what a); fold flags.
  unfold bind at 1. unfold cygwin_conv_path at 1; simpl.
  fold q; fold k3.
  unfold bind at 1.
  destruct (cr_ret q <? least); simpl.
  { unfold bind, errno, error, xsignal; simpl.
    subst e3 e2. rewrite <- app_assoc. reflexivity. }
  unfold bind at 1. unfold cygwin_conv_path at 1; simpl.
  fold f. fold k4.
  unfold bind at 1.
  destruct (cr_ret f =? 0); simpl.
  - rewrite unbind_to_guard. simpl. unfold filled.
    subst e4 e3 e2. rewrite <- !app_assoc. reflexivity.
  - unfold bind, errno, error, xsignal; simpl.
    subst e4 e3 e2. rewrite <- !app_assoc. reflexivity.
Qed.

End Runs.

(** ** The encoding bridge *)

Section Bridge.

Variable rt : lisp_runtime.

Lemma low_bit_odd (n : Z) : negb (Z.land n 1 =? 0) = Z.odd n.
Proof.
  change 1 with (Z.ones 1). rewrite Z.land_ones by lia.
  change (2 ^ 1) with 2. rewrite Zmod_odd.
  by destruct (Z.odd n).
Qed.

Lemma Fsubstring_all_but_last (s : lisp_string) (w : world) :
  STRING_MULTIBYTE s = false -> Z.odd (SBYTES s) = true ->
  Fsubstring rt s 0 (-1) w = (Ok (without_final_byte s), w).
Proof.
  unfold Fsubstring, STRING_MULTIBYTE, SBYTES, without_final_byte.
  destruct s as [data mb]; simpl. intros -> Hodd.
  destruct data as [|b data]; [discriminate|].
  change (length (b :: data)) with (S (length data)).
  rewrite Nat2Z.inj_succ.
  replace (-1 + Z.succ (Z.of_nat (length data))) with (Z.of_nat (length data))
    by lia.
  rewrite (proj2 (Z.leb_le 0 (Z.of_nat (length data)))) by lia.
  rewrite (proj2 (Z.leb_le (Z.of_nat (length data)) _)) by lia.
  simpl andb. cbv iota.
  rewrite Z.sub_0_r, Nat2Z.id. unfold ret. change (Z.to_nat 0) with 0%nat.
  rewrite drop_0.
  change (length data) with (Init.Nat.pred (length (b :: data))).
  rewrite removelast_firstn_len. reflexivity.
Qed.

(** C5: [from_unicode] on a string that is not marked multibyte and has an
    odd number of bytes decodes the string without its final byte; on any
    other string it decodes all the bytes.  Decoding is
    [code_convert_string_norecord] with utf-16le, and no signal is raised. *)
Theorem from_unicode_trims_odd_length (s : lisp_string) (w : world) :
  from_unicode rt (Lstr s) w =
    (Ok (Lstr (code_convert_string_norecord rt
                 (if negb (STRING_MULTIBYTE s) && Z.odd (SBYTES s)
                  then without_final_byte s else s)
                 Qutf_16_le false)),
     w).
Proof.
  unfold from_unicode, CHECK_STRING. unfold bind at 1. unfold ret at 1.
  rewrite low_bit_odd. unfold bind.
  destruct (STRING_MULTIBYTE s) eqn:Hmb; simpl; [reflexivity|].
  destruct (Z.odd (SBYTES s)) eqn:Hodd; [|reflexivity].
  by rewrite Fsubstring_all_but_last.
Qed.

Lemma to_unicode_data (path : lisp_string) :
  s_data (snd (to_unicode rt path)) =
    s_data (code_convert_string_norecord rt path Qutf_16_le true) ++ [NUL].
Proof.
  unfold to_unicode, make_uninit_string, write_bytes, SDATA, SBYTES; simpl.
  set (enc := s_data (code_convert_string_norecord rt path Qutf_16_le true)).
  rewrite Nat2Z.id.
  replace (Z.to_nat (Z.of_nat (length enc) + 1)) with (S (length enc)) by lia.
  rewrite take_app_length, length_replicate.
  rewrite drop_replicate.
  replace (S (length enc) - length enc)%nat with 1%nat by lia.
  simpl replicate.
  rewrite take_ge by (rewrite length_app; simpl; lia).
  replace (length enc) with (length enc + 0)%nat at 1 by lia.
  by rewrite insert_app_r.
Qed.

(** C4: the string [to_unicode] leaves in [buf] holds the UTF-16LE encoding
    of the path followed by one zero byte, so it is one byte longer than the
    encoding; with the zero byte that terminates every Lisp string, the
    storage the [wchar_t] pointer addresses ends in two zero bytes. *)
Theorem to_unicode_doubly_terminated (path : lisp_string) :
  let encoded := code_convert_string_norecord rt path Qutf_16_le true in
  let wide := fst (to_unicode rt path) in
  let buf := snd (to_unicode rt path) in
  SBYTES buf = SBYTES encoded + 1 /\
  length (SDATA buf) = S (length (SDATA encoded)) /\
  SDATA buf = s_data encoded ++ [NUL; NUL] /\
  wide = SDATA buf.
Proof.
  intros encoded wide buf.
  pose proof (to_unicode_data path) as Hdata. fold encoded buf in Hdata.
  assert (HS : SDATA buf = s_data encoded ++ [NUL; NUL]).
  { unfold SDATA. rewrite Hdata, <- app_assoc. reflexivity. }
  split; [|split; [|split]].
  - unfold SBYTES. rewrite Hdata, length_app. simpl. lia.
  - rewrite HS. unfold SDATA. rewrite !length_app. simpl. lia.
  - exact HS.
  - reflexivity.
Qed.

End Bridge.

(** ** The unwind handler *)

(** C10: [fchdir_unwind] calls [fchdir] and then [close] on the saved
    descriptor whatever [fchdir] returned, returns nil without signalling
    whatever the two calls returned, and leaves the descriptor closed. *)
Theorem fchdir_unwind_always_closes (dir_fd : Lisp_Object) (w : world) :
  let fd := XFASTINT dir_fd in
  let run := fchdir_unwind dir_fd w in
  fst run = Ok Qnil /\
  events_since w (snd run) =
    [Ev_fchdir fd (fst (sys_fchdir fd (w_kernel w)));
     Ev_close fd (fst (sys_close fd (snd (sys_fchdir fd (w_kernel w)))))] /\
  k_fds (w_kernel (snd run)) !! fd = None /\
  w_specpdl (snd run) = w_specpdl w.
Proof.
  intros fd run. subst run. rewrite fchdir_unwind_run. simpl.
  rewrite events_since_app. fold fd.
  repeat split. unfold after_cleanup. apply sys_close_released.
Qed.

(** ** The entry points *)

Section Entry.

Variable rt : lisp_runtime.
Variable os : cygwin.

Implicit Types (w : world) (k : kernel) (fd : Z) (d : direction).

Lemma from_unicode_run (s : lisp_string) w :
  from_unicode rt (Lstr s) w = (Ok (finish rt To_windows s), w).
Proof.
  unfold from_unicode, CHECK_STRING, finish. unfold bind at 1. unfold ret at 1.
  rewrite low_bit_odd. unfold bind.
  destruct (STRING_MULTIBYTE s) eqn:Hmb; simpl; [reflexivity|].
  destruct (Z.odd (SBYTES s)) eqn:Hodd; [|reflexivity].
  by rewrite Fsubstring_all_but_last.
Qed.

(** Each entry point is the shared body with its own parameters. *)
Lemma convert_path_shape d path a w :
  convert_path rt os d path a w =
    two_call_convert rt os (direction_what d) (least_length d)
      (source_memory rt d path) (finish rt d) (absolute_flag a) w.
Proof.
  destruct d; simpl.
  - unfold Fcygwin_convert_path_to_windows, bind at 1.
    rewrite conv_filename_to_w32_unicode_shape.
    fold (absolute_flag a).
    pose proof (two_call_convert_run rt os CCP_POSIX_TO_WIN_W 2
                  (SDATA (ENCODE_FILE rt path)) Lstr (absolute_flag a) w) as H1.
    pose proof (two_call_convert_run rt os CCP_POSIX_TO_WIN_W 2
                  (SDATA (ENCODE_FILE rt path)) (finish rt To_windows)
                  (absolute_flag a) w) as H2.
    cbv zeta in H1, H2. rewrite H1, H2.
    repeat match goal with
           | |- context [if ?b then _ else _] => destruct b; try reflexivity
           end.
    apply from_unicode_run.
  - unfold Fcygwin_convert_path_from_windows.
    destruct (to_unicode rt path) as [wide buf] eqn:E.
    rewrite conv_filename_from_w32_unicode_shape.
    change wide with (fst (wide, buf)). rewrite <- E. reflexivity.
Qed.

Ltac two_call_cases d path a w :=
  rewrite ?convert_path_shape;
  let H := fresh "Hrun" in
  pose proof (two_call_convert_run rt os (direction_what d) (least_length d)
                (source_memory rt d path) (finish rt d) (absolute_flag a) w)
    as H;
  cbv zeta in H; rewrite H; clear H;
  let Ho := fresh "Hopen" in
  let Hc := fresh "Hchdir" in
  let Hq := fresh "Hquery" in
  let Hf := fresh "Hfill" in
  destruct (fst (sys_open_dot (w_kernel w)) =? -1) eqn:Ho;
  [|destruct (negb (fst (sys_chdir (SDATA (ENCODE_FILE rt (target_directory rt)))
                           (snd (sys_open_dot (w_kernel w)))) =? 0)) eqn:Hc;
    [|match goal with
      | |- context [if ?q <? least_length d then _ else _] =>
          destruct (q <? least_length d) eqn:Hq;
          [|match goal with
            | |- context [if negb ?f then _ else _] => destruct (negb f) eqn:Hf
            end]
      end]];
  cbn [fst snd]; rewrite ?events_since_app.

(** C7: when [open (".")] fails, the guard signals an error whose message
    carries [strerror (errno)], and that is all that happens: the specpdl is
    unchanged, the log gains the failed [open] only (no [chdir], no call of
    the conversion facility), and the working directory is untouched.  The
    entry points fail the same way. *)
Theorem open_failure_stops d path a w :
  fst (sys_open_dot (w_kernel w)) = -1 ->
  let k' := snd (sys_open_dot (w_kernel w)) in
  let msg := "could not open current directory: " +:+ strerror os (k_errno k') in
  let w' := World k' (w_specpdl w) (w_log w ++ [Ev_open (-1)]) in
  chdir_to_default_directory rt os w = (Err (Sig_error msg), w') /\
  convert_path rt os d path a w = (Err (Sig_error msg), w') /\
  catching (convert_path rt os d path a) w = (Err (Sig_error msg), w') /\
  k_cwd k' = k_cwd (w_kernel w).
Proof.
  intros Hfail k' msg w'. subst k' msg w'.
  assert (Hconv : convert_path rt os d path a w =
    (Err (Sig_error ("could not open current directory: "
                     +:+ strerror os (k_errno (snd (sys_open_dot (w_kernel w)))))),
     World (snd (sys_open_dot (w_kernel w))) (w_specpdl w)
           (w_log w ++ [Ev_open (-1)]))).
  { two_call_cases d path a w.
    - by rewrite Hfail.
    - rewrite Hfail in Hopen. discriminate.
    - rewrite Hfail in Hopen. discriminate.
    - rewrite Hfail in Hopen. discriminate.
    - rewrite Hfail in Hopen. discriminate. }
  split; [|split; [|split]].
  - pose proof (chdir_to_default_directory_run rt os w) as H.
    cbv zeta in H. rewrite H, Hfail. reflexivity.
  - exact Hconv.
  - unfold catching. rewrite Hconv. by rewrite unbind_to_here.
  - apply sys_open_dot_cwd.
Qed.

(** C8: once the current directory is open, the guard calls [chdir] on the
    file-encoded expansion of the default directory, or on the file-encoded
    root "/" when that expansion is not a string; it makes no other system
    call, and it signals an error whose message carries [strerror (errno)]
    exactly when that [chdir] returns non-zero. *)
Theorem guard_target_and_chdir_failure w :
  fst (sys_open_dot (w_kernel w)) <> -1 ->
  let resolved :=
    Funhandled_file_name_directory rt
      (Fexpand_file_name rt (Lstr (build_string ".")) Qnil) in
  let dir := if STRINGP resolved then XSTRING resolved else build_string "/" in
  let o := sys_open_dot (w_kernel w) in
  let c := sys_chdir (SDATA (ENCODE_FILE rt dir)) (snd o) in
  let run := chdir_to_default_directory rt os w in
  events_since w (snd run) =
    [Ev_open (fst o); Ev_chdir (c_string (SDATA (ENCODE_FILE rt dir))) (fst c)] /\
  fst run =
    if fst c =? 0 then Ok tt
    else Err (Sig_error ("could not chdir: " +:+ strerror os (k_errno (snd c)))).
Proof.
  intros Hopen resolved dir o c run. subst run.
  assert (Hdir : target_directory rt = dir).
  { unfold target_directory. fold resolved. subst dir.
    by destruct (STRINGP resolved). }
  pose proof (chdir_to_default_directory_run rt os w) as H.
  cbv zeta in H. rewrite H, Hdir. clear H. fold o. fold c.
  apply Z.eqb_neq in Hopen. fold o in Hopen. rewrite Hopen. cbn [fst snd].
  by rewrite events_since_app.
Qed.

Lemma conv_path_calls_cons_other e evs :
  is_conv_path e = false -> conv_path_calls (e :: evs) = conv_path_calls evs.
Proof.
  intros H. unfold conv_path_calls. rewrite filter_cons.
  destruct (decide (is_conv_path e = true)); congruence.
Qed.

Lemma conv_path_calls_cons_conv e evs :
  is_conv_path e = true -> conv_path_calls (e :: evs) = e :: conv_path_calls evs.
Proof.
  intros H. unfold conv_path_calls. rewrite filter_cons.
  destruct (decide (is_conv_path e = true)); congruence.
Qed.

Lemma conv_path_calls_nil : conv_path_calls [] = [].
Proof. reflexivity. Qed.

Ltac calls :=
  unfold cleanup_events;
  repeat first
    [ rewrite conv_path_calls_cons_other by reflexivity
    | rewrite conv_path_calls_cons_conv by reflexivity
    | rewrite conv_path_calls_nil ].

(** C9: both entry points pass the C flag 0 when ABSOLUTE-P is nil and 1 for
    every other Lisp value; an omitted ABSOLUTE-P is nil; every call of the
    conversion facility made by an entry point carries the conversion type
    of its direction, with [CCP_RELATIVE] set exactly when ABSOLUTE-P is
    nil. *)
Theorem absolute_flag_selects_relative d path (absolute_p : Lisp_Object) w :
  let flags :=
    if NILP absolute_p then Z.lor (direction_what d) CCP_RELATIVE
    else direction_what d in
  (absolute_flag absolute_p <> 0 <-> absolute_p <> Qnil) /\
  Fcygwin_convert_path_to_windows rt os path absolute_p =
    bind (conv_filename_to_w32_unicode rt os path (absolute_flag absolute_p))
         (from_unicode rt) /\
  Fcygwin_convert_path_from_windows rt os path absolute_p =
    conv_filename_from_w32_unicode rt os (fst (to_unicode rt path))
      (absolute_flag absolute_p) /\
  call_with_optional (convert_path rt os d path) None =
    convert_path rt os d path Qnil /\
  Forall (fun e => conv_path_what e = Some flags)
    (conv_path_calls
       (events_since w (snd (convert_path rt os d path absolute_p w)))) /\
  Z.land flags CCP_RELATIVE = (if NILP absolute_p then CCP_RELATIVE else 0).
Proof.
  intros flags.
  assert (Hflags : conv_flags (direction_what d) (absolute_flag absolute_p)
                   = flags).
  { subst flags. unfold conv_flags, absolute_flag.
    by destruct (NILP absolute_p). }
  split; [|split; [|split; [|split; [|split]]]].
  - unfold absolute_flag. destruct absolute_p; simpl; split; congruence.
  - reflexivity.
  - unfold Fcygwin_convert_path_from_windows.
    by destruct (to_unicode rt path).
  - reflexivity.
  - two_call_cases d path absolute_p w; rewrite ?Hflags; calls;
      repeat constructor.
  - subst flags. destruct d, (NILP absolute_p); reflexivity.
Qed.

(** C3: if the first call an entry point makes to the conversion facility
    (the length query) returns less than 2 when converting to Windows, or
    less than 1 when converting from Windows, the entry point signals an
    error whose message carries [strerror (errno)], and that call is the
    only call of the facility. *)
Theorem short_length_query_stops d path a w (c : event) (rest : list event) :
  conv_path_calls (events_since w (snd (convert_path rt os d path a w)))
    = c :: rest ->
  event_ret c < least_length d ->
  (exists e, fst (convert_path rt os d path a w) =
               Err (Sig_error ("cygwin_conv_path: " +:+ strerror os e))) /\
  rest = [].
Proof.
  two_call_cases d path a w; calls; intros Hcalls Hshort;
    try discriminate; inversion Hcalls; subst; clear Hcalls;
    cbn [event_ret] in Hshort.
  - split; [eauto|reflexivity].
  - apply Z.ltb_ge in Hquery. lia.
  - apply Z.ltb_ge in Hquery. lia.
Qed.

Lemma filled_length (len : Z) (out : list byte) :
  1 <= len -> SBYTES (filled rt len out) = len - 1.
Proof.
  intros Hlen. unfold SBYTES, filled, with_data, write_bytes, SDATA,
    make_uninit_string; cbn [s_data].
  rewrite !length_take, !length_app, length_drop, !length_app,
    length_replicate. simpl length.
  rewrite (Nat.min_l (Z.to_nat (len - 1) + 1)) by lia.
  rewrite Nat.min_l by lia. lia.
Qed.

(** C6: an entry point either signals, or returns a string; and it returns a
    string only after every step succeeded: the directory was opened and
    changed, the length query answered at least the least valid length, the
    filling call answered 0, and the cleanup ran.  The string returned is
    then the decoding of all [len - 1] bytes of the filled string. *)
Theorem conversion_all_or_nothing d path a w :
  let run := convert_path rt os d path a w in
  let from := source_memory rt d path in
  (exists s, fst run = Err s) \/
  (exists fd dir flags len cwd r1 r2,
     let fill := conv_path os flags cwd from false len in
     fst run = Ok (finish rt d (filled rt len (cr_out fill))) /\
     events_since w (snd run) =
       [Ev_open fd; Ev_chdir dir 0;
        Ev_conv_path flags from true 0 len;
        Ev_conv_path flags from false len 0;
        Ev_fchdir fd r1; Ev_close fd r2] /\
     fd <> -1 /\ least_length d <= len /\ cr_ret fill = 0 /\
     SBYTES (filled rt len (cr_out fill)) = len - 1).
Proof.
  intros run from. subst run.
  two_call_cases d path a w; try (left; eexists; reflexivity).
  right.
  apply Z.eqb_neq in Hopen. apply Z.ltb_ge in Hquery.
  apply negb_false_iff, Z.eqb_eq in Hchdir.
  apply negb_false_iff, Z.eqb_eq in Hfill.
  do 7 eexists. cbv zeta.
  split; [reflexivity|].
  split; [unfold cleanup_events; cbn [app]; rewrite Hchdir, Hfill; reflexivity|].
  split; [exact Hopen|].
  split; [exact Hquery|].
  split; [exact Hfill|].
  apply filled_length. unfold least_length in Hquery. destruct d; lia.
Qed.

Lemma after_cleanup_restores fd k (dir : list byte) :
  k_fds k !! fd = Some dir -> fst (sys_fchdir fd k) = 0 ->
  k_cwd (after_cleanup fd k) = dir.
Proof.
  intros Hfd Hok. unfold after_cleanup.
  rewrite sys_close_cwd. by apply sys_fchdir_done.
Qed.

(** While the guard is in place the saved descriptor stays open on the
    directory the call started in. *)
Lemma saved_through_chdir w dir :
  fst (sys_open_dot (w_kernel w)) <> -1 ->
  k_fds (snd (sys_chdir dir (snd (sys_open_dot (w_kernel w)))))
    !! fst (sys_open_dot (w_kernel w)) = Some (k_cwd (w_kernel w)).
Proof.
  intros Hopen. rewrite sys_chdir_fds. by apply sys_open_dot_saved.
Qed.

Lemma live_guarded fd (body : list event) k :
  fd <> -1 ->
  Forall (fun e => match e with
                   | Ev_open _ | Ev_close _ _ => False
                   | _ => True
                   end) body ->
  live_after [] (Ev_open fd :: body ++ cleanup_events fd k) = [] /\
  (live_peak [] (Ev_open fd :: body ++ cleanup_events fd k) <= 1)%nat.
Proof.
  intros Hfd Hbody. apply Z.eqb_neq in Hfd. unfold cleanup_events.
  cbn [live_after live_peak]. rewrite Hfd.
  assert (Hlast : filter (fun x : Z => x ≠ fd) [fd] = []).
  { rewrite filter_cons. destruct (decide (fd ≠ fd)); [congruence|done]. }
  induction Hbody as [|e body He _ IH].
  - cbn [app live_after live_peak]. rewrite Hlast. split; [done|simpl; lia].
  - destruct IH as [IH1 IH2]. destruct e; try contradiction;
      (split; [exact IH1|]); cbn [app live_peak live_after length] in *; lia.
Qed.

Lemma live_after_guarded fd (body : list event) k :
  fd <> -1 ->
  Forall (fun e => match e with
                   | Ev_open _ | Ev_close _ _ => False
                   | _ => True
                   end) body ->
  live_after [] (Ev_open fd :: body ++ cleanup_events fd k) = [].
Proof. intros. by apply live_guarded. Qed.

Lemma live_peak_guarded fd (body : list event) k :
  fd <> -1 ->
  Forall (fun e => match e with
                   | Ev_open _ | Ev_close _ _ => False
                   | _ => True
                   end) body ->
  (live_peak [] (Ev_open fd :: body ++ cleanup_events fd k) <= 1)%nat.
Proof. intros. by apply live_guarded. Qed.

Lemma fchdir_ok_cleanup (evs : list event) fd k :
  fchdir_ok (evs ++ cleanup_events fd k) = true -> fst (sys_fchdir fd k) = 0.
Proof.
  unfold fchdir_ok, cleanup_events. rewrite forallb_app. cbn [forallb].
  intros H. apply andb_prop in H as [_ H]. apply andb_prop in H as [H _].
  by apply Z.eqb_eq.
Qed.

Lemma restore_attempts_guarded fd (body : list event) k :
  Forall (fun e => is_fchdir e = false) body ->
  restore_attempts (Ev_open fd :: body ++ cleanup_events fd k) = 1%nat.
Proof.
  intros Hbody. unfold restore_attempts, cleanup_events.
  rewrite filter_cons. destruct (decide (is_fchdir (Ev_open fd) = true));
    [discriminate|].
  rewrite filter_app.
  replace (filter (fun e => is_fchdir e = true) body) with (@nil event).
  - reflexivity.
  - symmetry. induction Hbody as [|e body He _ IH]; [done|].
    rewrite filter_cons. destruct (decide (is_fchdir e = true)); congruence.
Qed.

(** C2 (as amended): around every call of an entry point the specpdl is back
    at its depth; the call holds at most one saved working-directory
    descriptor at any time and none when it is over; the handler tries
    [fchdir] on the saved descriptor exactly once when the directory was
    opened (never otherwise); and the working directory after the call is
    the one before it whenever that [fchdir] succeeded.  This holds whether
    the call returns or signals. *)
Theorem guard_restores_working_directory d path a w :
  let run := catching (convert_path rt os d path a) w in
  let evs := events_since w (snd run) in
  w_specpdl (snd run) = w_specpdl w /\
  (live_peak [] evs <= 1)%nat /\
  live_after [] evs = [] /\
  restore_attempts evs =
    (if fst (sys_open_dot (w_kernel w)) =? -1 then 0%nat else 1%nat) /\
  (fchdir_ok evs = true -> k_cwd (w_kernel (snd run)) = k_cwd (w_kernel w)).
Proof.
  intros run evs. subst evs run. unfold catching.
  two_call_cases d path a w.
  - (* open failed: nothing was registered *)
    rewrite unbind_to_here. cbn [snd w_specpdl w_kernel].
    rewrite events_since_app. cbn [live_peak live_after]. rewrite Hopen.
    split; [reflexivity|]. split; [simpl; lia|].
    split; [reflexivity|]. split; [reflexivity|].
    intros _. apply sys_open_dot_cwd.
  - (* chdir failed *)
    rewrite unbind_to_guard. cbn [snd w_specpdl w_kernel XFASTINT].
    rewrite <- app_assoc, events_since_app. apply Z.eqb_neq in Hopen.
    split; [reflexivity|]. cbn [app].
    split; [|split; [|split]].
    + apply (live_peak_guarded _ [_]); [done|]. repeat constructor.
    + apply (live_after_guarded _ [_]); [done|]. repeat constructor.
    + apply (restore_attempts_guarded _ [_]). repeat constructor.
    + intros Hok. apply after_cleanup_restores.
      * by apply saved_through_chdir.
      * eapply (fchdir_ok_cleanup [_; _]). exact Hok.
  - (* the length query was too short *)
    rewrite unbind_to_guard. cbn [snd w_specpdl w_kernel XFASTINT].
    rewrite <- app_assoc, events_since_app. apply Z.eqb_neq in Hopen.
    split; [reflexivity|]. cbn [app].
    split; [|split; [|split]].
    + apply (live_peak_guarded _ [_; _]); [done|]. repeat constructor.
    + apply (live_after_guarded _ [_; _]); [done|]. repeat constructor.
    + apply (restore_attempts_guarded _ [_; _]). repeat constructor.
    + intros Hok. apply after_cleanup_restores.
      * rewrite note_errno_fds. by apply saved_through_chdir.
      * eapply (fchdir_ok_cleanup [_; _; _]). exact Hok.
  - (* the filling call failed *)
    rewrite unbind_to_guard. cbn [snd w_specpdl w_kernel XFASTINT].
    rewrite <- app_assoc, events_since_app. apply Z.eqb_neq in Hopen.
    split; [reflexivity|]. cbn [app].
    split; [|split; [|split]].
    + apply (live_peak_guarded _ [_; _; _]); [done|]. repeat constructor.
    + apply (live_after_guarded _ [_; _; _]); [done|]. repeat constructor.
    + apply (restore_attempts_guarded _ [_; _; _]). repeat constructor.
    + intros Hok. apply after_cleanup_restores.
      * rewrite !note_errno_fds. by apply saved_through_chdir.
      * eapply (fchdir_ok_cleanup [_; _; _; _]). exact Hok.
  - (* converted *)
    cbn [snd w_specpdl w_kernel]. apply Z.eqb_neq in Hopen.
    split; [reflexivity|]. cbn [app].
    split; [|split; [|split]].
    + apply (live_peak_guarded _ [_; _; _]); [done|]. repeat constructor.
    + apply (live_after_guarded _ [_; _; _]); [done|]. repeat constructor.
    + apply (restore_attempts_guarded _ [_; _; _]). repeat constructor.
    + intros Hok. apply after_cleanup_restores.
      * rewrite !note_errno_fds. by apply saved_through_chdir.
      * eapply (fchdir_ok_cleanup [_; _; _; _]). exact Hok.
Qed.

(** *** Runs without injected faults *)

Lemma lowest_free_lower (fds : gmap Z (list byte)) (fuel : nat) (fd0 : Z) :
  fd0 <= lowest_free fds fuel fd0.
Proof.
  revert fd0. induction fuel as [|n IH]; intros fd0; simpl; [lia|].
  destruct (fds !! fd0); [|lia]. specialize (IH (fd0 + 1)). lia.
Qed.

Lemma next_fault_clean k : k_faults k = [] -> next_fault k = (0, k).
Proof. unfold next_fault. by intros ->. Qed.

Lemma sys_open_dot_clean k :
  k_faults k = [] ->
  fst (sys_open_dot k) <> -1 /\ k_faults (snd (sys_open_dot k)) = [].
Proof.
  intros Hk. unfold sys_open_dot. rewrite next_fault_clean by done. simpl.
  split; [|done].
  pose proof (lowest_free_lower (k_fds k) (size (k_fds k)) 0). lia.
Qed.

Lemma sys_chdir_clean path k :
  k_faults k = [] ->
  sys_chdir path k = (0, set_cwd (resolve (k_cwd k) (c_string path)) k).
Proof. intros Hk. unfold sys_chdir. by rewrite next_fault_clean. Qed.

Lemma sys_fchdir_clean fd k (dir : list byte) :
  k_faults k = [] -> k_fds k !! fd = Some dir ->
  sys_fchdir fd k = (0, set_cwd dir k).
Proof.
  intros Hk Hfd. unfold sys_fchdir. rewrite next_fault_clean by done.
  simpl. by rewrite Hfd.
Qed.

Lemma sys_close_clean fd k :
  k_faults k = [] -> k_faults (snd (sys_close fd k)) = [].
Proof.
  intros Hk. unfold sys_close. rewrite next_fault_clean by done.
  by destruct (k_fds k !! fd).
Qed.

Lemma note_errno_faults r k : k_faults (note_errno r k) = k_faults k.
Proof. unfold note_errno. by destruct (cr_errno r). Qed.

Lemma filled_exact (out : list byte) :
  out <> [] ->
  filled rt (Z.of_nat (length out)) out =
    {| s_data := removelast out; s_multibyte := false |}.
Proof.
  intros Hout. unfold filled, with_data, write_bytes, SDATA,
    make_uninit_string; cbn [s_data s_multibyte]. f_equal.
  assert (Hn : Z.to_nat (Z.of_nat (length out) - 1) = pred (length out))
    by lia.
  assert (0 < length out)%nat by (destruct out; [done|simpl; lia]).
  rewrite Hn, length_app, length_replicate. simpl length.
  replace (pred (length out) + 1)%nat with (length out) by lia.
  rewrite take_app_length. by rewrite removelast_firstn_len.
Qed.

(** With no fault pending and a facility that follows the sizing protocol,
    the shared body returns the finished string and leaves the working
    directory and the (empty) fault schedule as they were. *)
Lemma two_call_convert_succeeds what least from fin a w (out : list byte) :
  let D := resolve (k_cwd (w_kernel w))
                   (c_string (SDATA (ENCODE_FILE rt (target_directory rt)))) in
  let run := two_call_convert rt os what least from fin a w in
  k_faults (w_kernel w) = [] ->
  converts os (conv_flags what a) D from out ->
  out <> [] -> least <= Z.of_nat (length out) ->
  fst run = Ok (fin {| s_data := removelast out; s_multibyte := false |}) /\
  k_faults (w_kernel (snd run)) = [] /\
  k_cwd (w_kernel (snd run)) = k_cwd (w_kernel w).
Proof.
  intros D run Hclean (Hq & Hf & Hout) Hne Hleast. subst run.
  pose proof (two_call_convert_run rt os what least from fin a w) as Hrun.
  cbv zeta in Hrun. rewrite Hrun. clear Hrun.
  destruct (sys_open_dot_clean _ Hclean) as [Hopen Hclean1].
  pose proof (sys_open_dot_saved _ _ eq_refl Hopen) as Hsaved.
  pose proof (sys_open_dot_cwd (w_kernel w)) as Hcwd1.
  set (o := sys_open_dot (w_kernel w)) in *.
  rewrite (sys_chdir_clean _ (snd o) Hclean1).
  cbn [fst snd]. rewrite Hcwd1. fold D.
  set (k2 := set_cwd D (snd o)).
  rewrite (proj2 (Z.eqb_neq _ _) Hopen).
  change (negb (0 =? 0)) with false. cbv iota.
  change (k_cwd k2) with D. rewrite note_errno_cwd. change (k_cwd k2) with D.
  rewrite Hq, Hf.
  rewrite (proj2 (Z.ltb_ge _ _) Hleast).
  change (negb (0 =? 0)) with false. cbv iota. cbn [fst snd w_kernel].
  rewrite Hout, filled_exact by done.
  split; [reflexivity|].
  set (k4 := note_errno _ (note_errno _ k2)).
  assert (Hclean4 : k_faults k4 = []).
  { subst k4. by rewrite !note_errno_faults. }
  assert (Hsaved4 : k_fds k4 !! fst o = Some (k_cwd (w_kernel w))).
  { subst k4. by rewrite !note_errno_fds. }
  unfold after_cleanup.
  rewrite (sys_fchdir_clean _ _ _ Hclean4 Hsaved4). cbn [snd].
  split.
  - by apply sys_close_clean.
  - by rewrite sys_close_cwd.
Qed.

Lemma odd_after_even (W : list byte) :
  Z.even (Z.of_nat (length W)) = true ->
  Z.odd (Z.of_nat (length (W ++ [NUL]))) = true.
Proof.
  intros Heven. rewrite length_app, Nat2Z.inj_add, Z.odd_add.
  rewrite <- Z.negb_even, Heven. reflexivity.
Qed.

(** C1: take a path [p], a world with no fault pending, and an environment
    in which the round trip of [p] works up to separators: in the default
    directory the facility, following its sizing protocol, converts the
    file-encoded [p] to the wide string [W] and [W] back to bytes [q] that
    are the file-encoded [p] up to separator normalization; UTF-16LE
    decoding and re-encoding reproduces [W]; and file-name decoding inverts
    the file-name encoding of [p] up to separators.  Then converting [p] to
    Windows form with ABSOLUTE-P nil returns the decoding of [W], and
    converting that back with ABSOLUTE-P nil returns a path that is [p]
    again up to separator normalization. *)
Theorem convert_round_trip (p : lisp_string) (W q : list byte) w :
  let D := resolve (k_cwd (w_kernel w))
                   (c_string (SDATA (ENCODE_FILE rt (target_directory rt)))) in
  let native :=
    code_convert_string_norecord rt (LispString W false) Qutf_16_le false in
  let to_win := Fcygwin_convert_path_to_windows rt os p Qnil w in
  let back :=
    Fcygwin_convert_path_from_windows rt os native Qnil (snd to_win) in
  k_faults (w_kernel w) = [] ->
  Z.even (Z.of_nat (length W)) = true ->
  converts os (Z.lor CCP_POSIX_TO_WIN_W CCP_RELATIVE) D
    (SDATA (ENCODE_FILE rt p)) (W ++ [NUL; NUL]) ->
  s_data (code_convert_string_norecord rt native Qutf_16_le true) = W ->
  converts os (Z.lor CCP_WIN_W_TO_POSIX CCP_RELATIVE) D
    (W ++ [NUL; NUL]) (q ++ [NUL]) ->
  same_up_to_separators (LispString q false) (ENCODE_FILE rt p) ->
  (forall e : lisp_string,
     same_up_to_separators e (ENCODE_FILE rt p) ->
     same_up_to_separators (DECODE_FILE rt e) p) ->
  fst to_win = Ok (Lstr native) /\
  exists p' : lisp_string,
    fst back = Ok (Lstr p') /\ same_up_to_separators p' p.
Proof.
  intros D native to_win back Hclean Heven Hto Hcodec Hfrom Hsame Hcoding.
  subst to_win back.
  change (Fcygwin_convert_path_to_windows rt os p Qnil)
    with (convert_path rt os To_windows p Qnil).
  change (Fcygwin_convert_path_from_windows rt os native Qnil)
    with (convert_path rt os From_windows native Qnil).
  rewrite convert_path_shape.
  destruct (two_call_convert_succeeds CCP_POSIX_TO_WIN_W 2
              (SDATA (ENCODE_FILE rt p)) (finish rt To_windows) 0 w
              (W ++ [NUL; NUL]) Hclean Hto) as (Hres & Hclean' & Hcwd).
  { by destruct W. }
  { rewrite length_app. simpl. lia. }
  change (W ++ [NUL; NUL]) with (W ++ [NUL] ++ [NUL]) in Hres.
  rewrite app_assoc, removelast_last in Hres.
  cbn [direction_what least_length source_memory absolute_flag NILP].
  split.
  - rewrite Hres. unfold finish, STRING_MULTIBYTE, SBYTES, without_final_byte.
    cbn [s_data s_multibyte negb andb].
    rewrite odd_after_even by done. by rewrite removelast_last.
  - set (w1 := snd (two_call_convert rt os CCP_POSIX_TO_WIN_W 2
                      (SDATA (ENCODE_FILE rt p)) (finish rt To_windows) 0 w))
      in *.
    rewrite convert_path_shape.
    cbn [direction_what least_length source_memory absolute_flag NILP].
    assert (Hmem : fst (to_unicode rt native) = W ++ [NUL; NUL]).
    { change (fst (to_unicode rt native))
        with (SDATA (snd (to_unicode rt native))).
      unfold SDATA. rewrite to_unicode_data, Hcodec, <- app_assoc.
      reflexivity. }
    rewrite Hmem.
    destruct (two_call_convert_succeeds CCP_WIN_W_TO_POSIX 1
                (W ++ [NUL; NUL]) (finish rt From_windows) 0 w1
                (q ++ [NUL]) Hclean') as (Hres2 & _ & _).
    { rewrite Hcwd. exact Hfrom. }
    { by destruct q. }
    { rewrite length_app. simpl. lia. }
    rewrite Hres2, removelast_last. unfold finish.
    exists (DECODE_FILE rt (LispString q false)).
    split; [reflexivity|]. by apply Hcoding.
Qed.

End Entry.

(** ** The statements at concrete inputs *)

(** The simulated facility at work, both ways. *)
Example to_windows_computes :
  fst (Fcygwin_convert_path_to_windows Sim.rt Sim.os Sim.foo_bar Qnil (Sim.start []))
  = Ok (Lstr Sim.foo_bar_native).
Proof. vm_compute. reflexivity. Qed.

Example from_windows_computes :
  fst (Fcygwin_convert_path_from_windows Sim.rt Sim.os Sim.foo_bar_native Qnil (Sim.start []))
  = Ok (Lstr Sim.foo_bar).
Proof. vm_compute. reflexivity. Qed.

(** Any non-nil ABSOLUTE-P, here a number, clears [CCP_RELATIVE]. *)
Example absolute_by_any_value :
  conv_path_calls
    (w_log (snd (Fcygwin_convert_path_to_windows Sim.rt Sim.os Sim.foo_bar (Lint 0)
                   (Sim.start []))))
  = [Ev_conv_path 1 (bytes "foo/bar" ++ [NUL]) true 0 16;
     Ev_conv_path 1 (bytes "foo/bar" ++ [NUL]) false 16 0].
Proof. vm_compute. reflexivity. Qed.

(** [to_unicode] on "ab": four bytes of UTF-16LE and the added zero; in
    memory two zero bytes end the storage. *)
Example to_unicode_computes :
  to_unicode Sim.rt (build_string "ab") =
    ([Byte.x61; NUL; Byte.x62; NUL; NUL; NUL],
     {| s_data := [Byte.x61; NUL; Byte.x62; NUL; NUL]; s_multibyte := false |}).
Proof. reflexivity. Qed.

(** [from_unicode] drops the stray fifth byte of a unibyte string. *)
Example from_unicode_computes :
  fst (from_unicode Sim.rt
         (Lstr {| s_data := [Byte.x61; NUL; Byte.x62; NUL; NUL];
                  s_multibyte := false |})
         (Sim.start []))
  = Ok (Lstr (build_string "ab")).
Proof. reflexivity. Qed.

(** The handler on a saved descriptor whose [fchdir] and [close] both fail:
    both are called, nothing is signalled, the descriptor is released. *)
Example fchdir_unwind_computes :
  let w := snd (open_dot (Sim.start [0; Sim.EACCES; Sim.EINVAL])) in
  let run := fchdir_unwind (make_number 0) w in
  fst run = Ok Qnil /\
  w_log (snd run) = [Ev_open 0; Ev_fchdir 0 (-1); Ev_close 0 (-1)] /\
  k_fds (w_kernel (snd run)) !! 0 = None.
Proof. vm_compute. repeat split. Qed.

Lemma convert_round_trip_witness :
  let w := Sim.start [] in
  let p := Sim.foo__bar in
  let W := Sim.encode16 (bytes "foo\bar") in
  let q := bytes "foo/bar" in
  let native :=
    code_convert_string_norecord Sim.rt (LispString W false) Qutf_16_le false in
  let to_win :=
    Fcygwin_convert_path_to_windows Sim.rt Sim.os_normalizing p Qnil w in
  let back :=
    Fcygwin_convert_path_from_windows Sim.rt Sim.os_normalizing native Qnil
      (snd to_win) in
  k_faults (w_kernel w) = [] /\
  Z.even (Z.of_nat (length W)) = true /\
  converts Sim.os_normalizing (Z.lor CCP_POSIX_TO_WIN_W CCP_RELATIVE)
    (bytes "/tmp/") (SDATA (ENCODE_FILE Sim.rt p)) (W ++ [NUL; NUL]) /\
  converts Sim.os_normalizing (Z.lor CCP_WIN_W_TO_POSIX CCP_RELATIVE)
    (bytes "/tmp/") (W ++ [NUL; NUL]) (q ++ [NUL]) /\
  same_up_to_separators (LispString q false) (ENCODE_FILE Sim.rt p) /\
  fst to_win = Ok (Lstr Sim.foo_bar_native) /\
  exists p' : lisp_string,
    fst back = Ok (Lstr p') /\ same_up_to_separators p' p.
Proof.
  intros w p W q native to_win back.
  assert (H1 : k_faults (w_kernel w) = []) by reflexivity.
  assert (H2 : Z.even (Z.of_nat (length W)) = true) by reflexivity.
  assert (H3 : converts Sim.os_normalizing
                 (Z.lor CCP_POSIX_TO_WIN_W CCP_RELATIVE) (bytes "/tmp/")
                 (SDATA (ENCODE_FILE Sim.rt p)) (W ++ [NUL; NUL]))
    by (vm_compute; auto).
  assert (H4 : converts Sim.os_normalizing
                 (Z.lor CCP_WIN_W_TO_POSIX CCP_RELATIVE) (bytes "/tmp/")
                 (W ++ [NUL; NUL]) (q ++ [NUL]))
    by (vm_compute; auto).
  assert (H5 : same_up_to_separators (LispString q false)
                 (ENCODE_FILE Sim.rt p))
    by (vm_compute; auto).
  assert (H6 : forall e : lisp_string,
             same_up_to_separators e (ENCODE_FILE Sim.rt p) ->
             same_up_to_separators (DECODE_FILE Sim.rt e) p)
    by (intros e He; exact He).
  repeat (split; [assumption|]).
  exact (convert_round_trip Sim.rt Sim.os_normalizing p W q w
           H1 H2 H3 eq_refl H4 H5 H6).
Defined.

(** Separator normalization collapses runs of slashes and nothing else: an
    unrelated path is not the same up to separators. *)
Example collapse_separators_computes :
  collapse_separators (bytes "a//b///c/") = bytes "a/b/c/".
Proof. reflexivity. Qed.

Example unrelated_path_differs :
  ~ same_up_to_separators (build_string "zzz") Sim.foo__bar.
Proof. intros [H _]. vm_compute in H. discriminate. Qed.

(** The path that comes back is the one that went in with its doubled
    slash collapsed. *)
Example round_trip_computes :
  let to_win :=
    Fcygwin_convert_path_to_windows Sim.rt Sim.os_normalizing Sim.foo__bar
      Qnil (Sim.start []) in
  fst (Fcygwin_convert_path_from_windows Sim.rt Sim.os_normalizing
         Sim.foo_bar_native Qnil (snd to_win))
  = Ok (Lstr Sim.foo_bar).
Proof. vm_compute. reflexivity. Qed.

(** The claim C2 as stated fails: when the [fchdir] of the unwind handler
    fails, the call still returns (or signals) and the process stays in the
    default directory.  The third and fourth system calls are the handler's
    [fchdir] and [close]. *)
Lemma working_directory_not_restored :
  let w := Sim.start [0; 0; Sim.EACCES] in
  let ok :=
    catching (convert_path Sim.rt Sim.os To_windows Sim.foo_bar Qnil) w in
  let failed :=
    catching (convert_path Sim.rt (Sim.stub 8) To_windows Sim.foo_bar Qnil) w in
  k_cwd (w_kernel w) = bytes "/home/u" /\
  fst ok = Ok (Lstr Sim.foo_bar_native) /\
  k_cwd (w_kernel (snd ok)) = bytes "/tmp/" /\
  fst failed = Err (Sig_error "cygwin_conv_path: Invalid argument") /\
  k_cwd (w_kernel (snd failed)) = bytes "/tmp/" /\
  k_cwd (w_kernel (snd ok)) <> k_cwd (w_kernel w) /\
  k_cwd (w_kernel (snd failed)) <> k_cwd (w_kernel w).
Proof. vm_compute. repeat split; discriminate. Qed.

Lemma guard_restores_working_directory_witness :
  let w := Sim.start [] in
  let run :=
    catching (convert_path Sim.rt (Sim.stub 8) To_windows Sim.foo_bar Qnil) w in
  fchdir_ok (events_since w (snd run)) = true /\
  fst run = Err (Sig_error "cygwin_conv_path: Invalid argument") /\
  k_cwd (w_kernel (snd run)) = k_cwd (w_kernel w).
Proof.
  intros w run.
  assert (H : fchdir_ok (events_since w (snd run)) = true)
    by (vm_compute; reflexivity).
  split; [exact H|]. split; [vm_compute; reflexivity|].
  exact (proj2 (proj2 (proj2 (proj2
           (guard_restores_working_directory Sim.rt (Sim.stub 8) To_windows
              Sim.foo_bar Qnil w)))) H).
Defined.

Lemma short_length_query_stops_witness :
  let w := Sim.start [] in
  let to_win := convert_path Sim.rt (Sim.stub 1) To_windows Sim.foo_bar Qnil w in
  let from_win :=
    convert_path Sim.rt (Sim.stub 0) From_windows Sim.foo_bar_native Qnil w in
  let c1 := Ev_conv_path 257 (bytes "foo/bar" ++ [NUL]) true 0 1 in
  let c2 :=
    Ev_conv_path 259 (Sim.encode16 (bytes "foo\bar") ++ [NUL; NUL]) true 0 0 in
  (conv_path_calls (events_since w (snd to_win)) = [c1] /\
   event_ret c1 < least_length To_windows /\
   exists e, fst to_win =
               Err (Sig_error ("cygwin_conv_path: " +:+ strerror (Sim.stub 1) e)))
  /\
  (conv_path_calls (events_since w (snd from_win)) = [c2] /\
   event_ret c2 < least_length From_windows /\
   exists e, fst from_win =
               Err (Sig_error ("cygwin_conv_path: " +:+ strerror (Sim.stub 0) e))).
Proof.
  intros w to_win from_win c1 c2.
  assert (H1 : conv_path_calls (events_since w (snd to_win)) = [c1])
    by (vm_compute; reflexivity).
  assert (H2 : event_ret c1 < least_length To_windows) by (simpl; lia).
  assert (H3 : conv_path_calls (events_since w (snd from_win)) = [c2])
    by (vm_compute; reflexivity).
  assert (H4 : event_ret c2 < least_length From_windows) by (simpl; lia).
  split; (split; [assumption|]); (split; [assumption|]).
  - exact (proj1 (short_length_query_stops Sim.rt (Sim.stub 1) To_windows
                    Sim.foo_bar Qnil w c1 [] H1 H2)).
  - exact (proj1 (short_length_query_stops Sim.rt (Sim.stub 0) From_windows
                    Sim.foo_bar_native Qnil w c2 [] H3 H4)).
Defined.

Lemma open_failure_stops_witness :
  let w := Sim.start [Sim.EACCES] in
  fst (sys_open_dot (w_kernel w)) = -1 /\
  convert_path Sim.rt Sim.os To_windows Sim.foo_bar Qnil w =
    (Err (Sig_error ("could not open current directory: "
                     +:+ strerror Sim.os
                           (k_errno (snd (sys_open_dot (w_kernel w)))))),
     World (snd (sys_open_dot (w_kernel w))) (w_specpdl w)
           (w_log w ++ [Ev_open (-1)])).
Proof.
  intros w.
  assert (H : fst (sys_open_dot (w_kernel w)) = -1) by reflexivity.
  split; [exact H|].
  exact (proj1 (proj2 (open_failure_stops Sim.rt Sim.os To_windows
                         Sim.foo_bar Qnil w H))).
Defined.

Lemma guard_target_and_chdir_failure_witness :
  let w := Sim.start [0; Sim.ENOENT] in
  let run := chdir_to_default_directory Sim.rt_no_directory Sim.os w in
  fst (sys_open_dot (w_kernel w)) <> -1 /\
  events_since w (snd run) = [Ev_open 0; Ev_chdir (bytes "/") (-1)] /\
  fst run = Err (Sig_error "could not chdir: No such file or directory").
Proof.
  intros w run.
  assert (H : fst (sys_open_dot (w_kernel w)) <> -1) by (vm_compute; discriminate).
  split; [exact H|].
  exact (guard_target_and_chdir_failure Sim.rt_no_directory Sim.os w H).
Defined.

(** ** Further properties of the conversions *)

Section Protocol.

Variable rt : lisp_runtime.
Variable os : cygwin.

Implicit Types (w : world) (k : kernel) (fd : Z) (d : direction).

Ltac entry_cases d path a w :=
  rewrite ?convert_path_shape;
  let H := fresh "Hrun" in
  pose proof (two_call_convert_run rt os (direction_what d) (least_length d)
                (source_memory rt d path) (finish rt d) (absolute_flag a) w)
    as H;
  cbv zeta in H; rewrite H; clear H;
  let Ho := fresh "Hopen" in
  let Hc := fresh "Hchdir" in
  let Hq := fresh "Hquery" in
  let Hf := fresh "Hfill" in
  destruct (fst (sys_open_dot (w_kernel w)) =? -1) eqn:Ho;
  [|destruct (negb (fst (sys_chdir (SDATA (ENCODE_FILE rt (target_directory rt)))
                           (snd (sys_open_dot (w_kernel w)))) =? 0)) eqn:Hc;
    [|match goal with
      | |- context [if ?q <? least_length d then _ else _] =>
          destruct (q <? least_length d) eqn:Hq;
          [|match goal with
            | |- context [if negb ?f then _ else _] => destruct (negb f) eqn:Hf
            end]
      end]];
  cbn [fst snd]; rewrite ?events_since_app.

Ltac log_calls :=
  unfold cleanup_events;
  repeat first
    [ rewrite conv_path_calls_cons_other by reflexivity
    | rewrite conv_path_calls_cons_conv by reflexivity
    | rewrite conv_path_calls_nil ].

Lemma source_memory_bytes d path :
  source_memory rt d path = source_bytes rt d path.
Proof.
  destruct d; [reflexivity|]. unfold source_memory, source_bytes.
  change (fst (to_unicode rt path)) with (SDATA (snd (to_unicode rt path))).
  unfold SDATA. by rewrite to_unicode_data, <- app_assoc.
Qed.

Lemma sys_chdir_done path k :
  fst (sys_chdir path k) = 0 ->
  k_cwd (snd (sys_chdir path k)) = resolve (k_cwd k) (c_string path).
Proof.
  unfold sys_chdir. pose proof (next_fault_cwd k) as H.
  destruct (next_fault k) as [e k1]; simpl in *.
  destruct (e =? 0); simpl; [by rewrite H|done].
Qed.

Lemma conversion_directory_reached w :
  let o := sys_open_dot (w_kernel w) in
  let c := sys_chdir (SDATA (ENCODE_FILE rt (target_directory rt))) (snd o) in
  negb (fst c =? 0) = false ->
  k_cwd (snd c) = conversion_directory rt (w_kernel w).
Proof.
  intros o c Hc. apply negb_false_iff, Z.eqb_eq in Hc.
  subst c. rewrite sys_chdir_done by done. subst o.
  by rewrite sys_open_dot_cwd.
Qed.

(** X1: an entry point calls the conversion facility at most twice, always
    with the flags of its direction and with the same source: the
    file-encoded path and its terminating zero (to Windows), or the UTF-16LE
    encoding followed by two zero bytes (from Windows).  The first call has a
    NULL destination and size 0; there is a second call only when the first
    returned at least the least valid length, and its size is exactly what
    the first call returned. *)
Theorem facility_calls_follow_protocol d path a w :
  let flags := conv_flags (direction_what d) (absolute_flag a) in
  let from := source_bytes rt d path in
  let calls :=
    conv_path_calls (events_since w (snd (convert_path rt os d path a w))) in
  calls = [] \/
  (exists len,
     len < least_length d /\ calls = [Ev_conv_path flags from true 0 len]) \/
  (exists len r,
     least_length d <= len /\
     calls = [Ev_conv_path flags from true 0 len;
              Ev_conv_path flags from false len r]).
Proof.
  intros flags from calls. subst flags from calls.
  rewrite <- source_memory_bytes.
  entry_cases d path a w; log_calls.
  - by left.
  - by left.
  - right; left. eexists. split; [|reflexivity]. by apply Z.ltb_lt.
  - right; right. do 2 eexists. split; [|reflexivity]. by apply Z.ltb_ge.
  - right; right. do 2 eexists. split; [|reflexivity]. by apply Z.ltb_ge.
Qed.

(** X2: whenever an entry point calls the facility, the process is in the
    default directory (the guard's [chdir] succeeded): the first call's value
    is the facility's answer to the length query there, and the value of any
    further call is its answer there to the filling call of that size. *)
Theorem facility_runs_in_default_directory d path a w
    (c : event) (rest : list event) :
  let flags := conv_flags (direction_what d) (absolute_flag a) in
  let D := conversion_directory rt (w_kernel w) in
  let from := source_bytes rt d path in
  conv_path_calls (events_since w (snd (convert_path rt os d path a w)))
    = c :: rest ->
  event_ret c = cr_ret (conv_path os flags D from true 0) /\
  Forall (fun e => event_ret e =
                     cr_ret (conv_path os flags D from false (event_ret c)))
         rest.
Proof.
  intros flags D from. subst flags D from.
  rewrite <- source_memory_bytes.
  entry_cases d path a w; log_calls; intros Hcalls;
    try discriminate; inversion Hcalls; subst; clear Hcalls;
    cbn [event_ret];
    rewrite ?note_errno_cwd, (conversion_directory_reached w Hchdir);
    repeat constructor.
Qed.

(** X3: an entry point returns a string or signals [error]; the message is
    one of the three formats of cygw32.c completed with [strerror] of an
    [errno] value.  The checks inside [from_unicode] (string type, substring
    range) never fire on the string the conversion hands over. *)
Theorem signals_are_errors d path a w :
  let run := convert_path rt os d path a w in
  (exists s, fst run = Ok (Lstr s)) \/
  (exists prefix e,
     In prefix error_prefixes /\
     fst run = Err (Sig_error (prefix +:+ strerror os e))).
Proof.
  intros run. subst run.
  entry_cases d path a w.
  - right. do 2 eexists. split; [|reflexivity]. simpl; auto.
  - right. do 2 eexists. split; [|reflexivity]. simpl; auto.
  - right. do 2 eexists. split; [|reflexivity]. simpl; auto.
  - right. do 2 eexists. split; [|reflexivity]. simpl; auto.
  - left. destruct d; eexists; reflexivity.
Qed.

(** *** The descriptor table *)

Lemma lowest_free_fresh_from (fds : gmap Z (list byte)) (fuel : nat) (fd0 : Z) :
  (size (filter (fun i : Z => (fd0 <= i)%Z) (dom fds)) <= fuel)%nat ->
  fds !! lowest_free fds fuel fd0 = None.
Proof.
  revert fd0. induction fuel as [|n IH]; intros fd0 Hsize; simpl.
  - apply not_elem_of_dom. intros Hin.
    assert (Hempty : filter (fun i => fd0 <= i) (dom fds) ≡ ∅)
      by (apply size_empty_inv; lia).
    assert (Hfd : fd0 ∈ filter (fun i => fd0 <= i) (dom fds))
      by (apply elem_of_filter; split; [lia|done]).
    rewrite Hempty in Hfd. by apply elem_of_empty in Hfd.
  - destruct (fds !! fd0) eqn:E; [|done].
    apply IH.
    assert (Hsub : filter (fun i => fd0 + 1 <= i) (dom fds)
                   ⊂ filter (fun i => fd0 <= i) (dom fds)).
    { split.
      - intros i. rewrite !elem_of_filter. intros [? ?]. split; [lia|done].
      - intros Hsup.
        assert (Hin : fd0 ∈ filter (fun i => fd0 <= i) (dom fds)).
        { apply elem_of_filter. split; [lia|]. apply elem_of_dom. eauto. }
        apply Hsup, elem_of_filter in Hin. lia. }
    apply subset_size in Hsub. lia.
Qed.

(** [open] hands out a descriptor that was not in use. *)
Lemma lowest_free_fresh (fds : gmap Z (list byte)) :
  fds !! lowest_free fds (size fds) 0 = None.
Proof.
  apply lowest_free_fresh_from. rewrite <- (size_dom fds).
  apply subseteq_size. intros i. rewrite elem_of_filter. by intros [_ ?].
Qed.

Lemma sys_open_dot_failed k :
  fst (sys_open_dot k) = -1 -> k_fds (snd (sys_open_dot k)) = k_fds k.
Proof.
  unfold sys_open_dot. pose proof (next_fault_fds k) as H.
  destruct (next_fault k) as [e k1]; simpl in *.
  destruct (e =? 0); simpl; [|done].
  pose proof (lowest_free_lower (k_fds k1) (size (k_fds k1)) 0). lia.
Qed.

Lemma sys_open_dot_fds k :
  fst (sys_open_dot k) <> -1 ->
  k_fds (snd (sys_open_dot k)) = <[fst (sys_open_dot k) := k_cwd k]> (k_fds k)
  /\ k_fds k !! fst (sys_open_dot k) = None.
Proof.
  unfold sys_open_dot. pose proof (next_fault_fds k) as Hf.
  pose proof (next_fault_cwd k) as Hc.
  destruct (next_fault k) as [e k1]; simpl in *.
  destruct (e =? 0); simpl; [|done]. intros _.
  rewrite Hf, Hc. split; [done|]. apply lowest_free_fresh.
Qed.

Lemma sys_fchdir_fds fd k : k_fds (snd (sys_fchdir fd k)) = k_fds k.
Proof.
  unfold sys_fchdir. pose proof (next_fault_fds k) as H.
  destruct (next_fault k) as [e k1]; simpl in *.
  destruct (e =? 0); [|done]. by destruct (k_fds k1 !! fd).
Qed.

Lemma sys_fchdir_failed fd k :
  fst (sys_fchdir fd k) <> 0 -> k_cwd (snd (sys_fchdir fd k)) = k_cwd k.
Proof.
  unfold sys_fchdir. pose proof (next_fault_cwd k) as H.
  destruct (next_fault k) as [e k1]; simpl in *.
  destruct (e =? 0); [|done]. by destruct (k_fds k1 !! fd).
Qed.

Lemma sys_close_fds fd k :
  k_fds (snd (sys_close fd k)) = delete fd (k_fds k).
Proof.
  unfold sys_close. pose proof (next_fault_fds k) as H.
  destruct (next_fault k) as [e k1]; simpl in *. rewrite <- H.
  destruct (k_fds k1 !! fd) eqn:E; simpl.
  - by destruct (e =? 0).
  - by rewrite delete_id.
Qed.

Lemma after_cleanup_fds fd k :
  k_fds (after_cleanup fd k) = delete fd (k_fds k).
Proof. unfold after_cleanup. by rewrite sys_close_fds, sys_fchdir_fds. Qed.

(** The saved descriptor is released and no other descriptor is touched. *)
Lemma guard_fds_released w dir (k : kernel) :
  fst (sys_open_dot (w_kernel w)) <> -1 ->
  k_fds k = k_fds (snd (sys_chdir dir (snd (sys_open_dot (w_kernel w))))) ->
  k_fds (after_cleanup (fst (sys_open_dot (w_kernel w))) k)
  = k_fds (w_kernel w).
Proof.
  intros Hopen Hk. rewrite after_cleanup_fds, Hk, sys_chdir_fds.
  destruct (sys_open_dot_fds _ Hopen) as [-> Hfresh].
  by apply delete_insert_id.
Qed.

(** X5: a call of an entry point, returning or signalling, leaves the table
    of open descriptors exactly as it found it: the descriptor it opened is
    closed again, also when the handler's [fchdir] or [close] fails, and no
    other descriptor is closed or replaced. *)
Theorem descriptor_table_preserved d path a w :
  k_fds (w_kernel (snd (catching (convert_path rt os d path a) w)))
  = k_fds (w_kernel w).
Proof.
  unfold catching. entry_cases d path a w.
  - rewrite unbind_to_here. cbn [snd w_kernel].
    apply sys_open_dot_failed. by apply Z.eqb_eq.
  - rewrite unbind_to_guard. cbn [snd w_kernel XFASTINT].
    apply Z.eqb_neq in Hopen. by eapply guard_fds_released.
  - rewrite unbind_to_guard. cbn [snd w_kernel XFASTINT].
    apply Z.eqb_neq in Hopen. eapply guard_fds_released; [done|].
    by rewrite note_errno_fds.
  - rewrite unbind_to_guard. cbn [snd w_kernel XFASTINT].
    apply Z.eqb_neq in Hopen. eapply guard_fds_released; [done|].
    by rewrite !note_errno_fds.
  - cbn [snd w_kernel].
    apply Z.eqb_neq in Hopen. eapply guard_fds_released; [done|].
    by rewrite !note_errno_fds.
Qed.

(** X4: at the moment an entry point signals, the descriptor it saved is
    protected: either [open] had failed, and then nothing is registered and
    no descriptor was added; or the handler for exactly the opened
    descriptor is on top of the specpdl, that descriptor still refers to the
    directory the call started in, and no restore was attempted yet.  When
    the entry point returns, the specpdl is as it was. *)
Theorem signal_leaves_descriptor_protected d path a w :
  let run := convert_path rt os d path a w in
  let fd := fst (sys_open_dot (w_kernel w)) in
  match fst run with
  | Ok _ => w_specpdl (snd run) = w_specpdl w
  | Err _ =>
      if fd =? -1 then
        w_specpdl (snd run) = w_specpdl w /\
        k_fds (w_kernel (snd run)) = k_fds (w_kernel w)
      else
        w_specpdl (snd run) =
          Unwind_protect H_fchdir_unwind (make_number fd) :: w_specpdl w /\
        k_fds (w_kernel (snd run)) !! fd = Some (k_cwd (w_kernel w)) /\
        restore_attempts (events_since w (snd run)) = 0%nat
  end.
Proof.
  intros run fd. subst run fd.
  entry_cases d path a w; cbn [w_specpdl w_kernel]; rewrite ?Hopen.
  - split; [reflexivity|]. apply sys_open_dot_failed. by apply Z.eqb_eq.
  - apply Z.eqb_neq in Hopen.
    split; [reflexivity|]. split; [by apply saved_through_chdir|reflexivity].
  - apply Z.eqb_neq in Hopen.
    split; [reflexivity|]. rewrite note_errno_fds.
    split; [by apply saved_through_chdir|reflexivity].
  - apply Z.eqb_neq in Hopen.
    split; [reflexivity|]. rewrite !note_errno_fds.
    split; [by apply saved_through_chdir|reflexivity].
  - reflexivity.
Qed.

(** *** Where the process ends up *)

Lemma after_cleanup_cwd fd k (dir : list byte) :
  k_fds k !! fd = Some dir ->
  k_cwd (after_cleanup fd k) =
    if fst (sys_fchdir fd k) =? 0 then dir else k_cwd k.
Proof.
  intros Hfd. unfold after_cleanup. rewrite sys_close_cwd.
  destruct (fst (sys_fchdir fd k) =? 0) eqn:E.
  - apply sys_fchdir_done; [done|]. by apply Z.eqb_eq.
  - apply sys_fchdir_failed. by apply Z.eqb_neq.
Qed.

Lemma chdir_failed_cwd w dir :
  negb (fst (sys_chdir dir (snd (sys_open_dot (w_kernel w)))) =? 0) = true ->
  k_cwd (snd (sys_chdir dir (snd (sys_open_dot (w_kernel w)))))
  = k_cwd (w_kernel w).
Proof.
  intros H. apply negb_true_iff, Z.eqb_neq in H.
  rewrite sys_chdir_failed by done. apply sys_open_dot_cwd.
Qed.

(** X6: after a call of an entry point, returning or signalling, the process
    is in the directory it started in, except in one case: the guard's
    [chdir] succeeded and the handler's [fchdir] failed; then it is in the
    default directory.  A failed [chdir] never moves the process, whatever
    the handler's [fchdir] does afterwards. *)
Theorem final_working_directory d path a w :
  let run := catching (convert_path rt os d path a) w in
  let evs := events_since w (snd run) in
  k_cwd (w_kernel (snd run)) =
    if fchdir_ok evs || negb (chdir_ok evs) then k_cwd (w_kernel w)
    else conversion_directory rt (w_kernel w).
Proof.
  intros run evs. subst evs run. unfold catching.
  entry_cases d path a w.
  - rewrite unbind_to_here. cbn [snd w_kernel]. rewrite events_since_app.
    apply sys_open_dot_cwd.
  - rewrite unbind_to_guard. cbn [snd w_kernel XFASTINT].
    rewrite <- app_assoc, events_since_app. apply Z.eqb_neq in Hopen.
    rewrite (after_cleanup_cwd _ _ _ (saved_through_chdir w _ Hopen)).
    rewrite (chdir_failed_cwd w _ Hchdir).
    unfold fchdir_ok, chdir_ok, cleanup_events. cbn [app forallb].
    apply negb_true_iff in Hchdir. rewrite Hchdir. cbn [andb negb].
    rewrite orb_true_r. by destruct (fst (sys_fchdir _ _) =? 0).
  - rewrite unbind_to_guard. cbn [snd w_kernel XFASTINT].
    rewrite <- app_assoc, events_since_app. apply Z.eqb_neq in Hopen.
    rewrite after_cleanup_cwd with (dir := k_cwd (w_kernel w))
      by (rewrite note_errno_fds; by apply saved_through_chdir).
    rewrite note_errno_cwd, (conversion_directory_reached w Hchdir).
    unfold fchdir_ok, chdir_ok, cleanup_events. cbn [app forallb].
    apply negb_false_iff in Hchdir. rewrite Hchdir. cbn [andb negb].
    rewrite !andb_true_r, orb_false_r. reflexivity.
  - rewrite unbind_to_guard. cbn [snd w_kernel XFASTINT].
    rewrite <- app_assoc, events_since_app. apply Z.eqb_neq in Hopen.
    rewrite after_cleanup_cwd with (dir := k_cwd (w_kernel w))
      by (rewrite !note_errno_fds; by apply saved_through_chdir).
    rewrite !note_errno_cwd, (conversion_directory_reached w Hchdir).
    unfold fchdir_ok, chdir_ok, cleanup_events. cbn [app forallb].
    apply negb_false_iff in Hchdir. rewrite Hchdir. cbn [andb negb].
    rewrite !andb_true_r, orb_false_r. reflexivity.
  - cbn [snd w_kernel]. apply Z.eqb_neq in Hopen.
    rewrite after_cleanup_cwd with (dir := k_cwd (w_kernel w))
      by (rewrite !note_errno_fds; by apply saved_through_chdir).
    rewrite !note_errno_cwd, (conversion_directory_reached w Hchdir).
    unfold fchdir_ok, chdir_ok, cleanup_events. cbn [app forallb].
    apply negb_false_iff in Hchdir. rewrite Hchdir. cbn [andb negb].
    rewrite !andb_true_r, orb_false_r. reflexivity.
Qed.

(** X7: when the length query returns less than the least valid length, the
    message carries [strerror] of [errno] as it stands after the query: the
    value the facility stored, and, when the facility stored none (a short
    length is not a failure of the facility), the value left by whatever
    call set [errno] before. *)
Theorem short_query_reports_errno d path a w :
  let o := sys_open_dot (w_kernel w) in
  let c := sys_chdir (SDATA (ENCODE_FILE rt (target_directory rt))) (snd o) in
  let q := conv_path os (conv_flags (direction_what d) (absolute_flag a))
             (conversion_directory rt (w_kernel w)) (source_bytes rt d path)
             true 0 in
  fst o <> -1 -> fst c = 0 -> cr_ret q < least_length d ->
  fst (convert_path rt os d path a w) =
    Err (Sig_error ("cygwin_conv_path: "
                    +:+ strerror os (default (k_errno (snd c)) (cr_errno q)))).
Proof.
  intros o c q Ho Hc Hq. subst o c q.
  rewrite <- source_memory_bytes in Hq |- *.
  entry_cases d path a w.
  - apply Z.eqb_eq in Hopen. contradiction.
  - rewrite Hc in Hchdir. discriminate.
  - rewrite (conversion_directory_reached w Hchdir).
    unfold note_errno. by destruct (cr_errno _).
  - rewrite (conversion_directory_reached w Hchdir) in Hquery.
    apply Z.ltb_ge in Hquery. lia.
  - rewrite (conversion_directory_reached w Hchdir) in Hquery.
    apply Z.ltb_ge in Hquery. lia.
Qed.

(** X8: [from_unicode] applied to the string [to_unicode] leaves in [buf]
    decodes exactly the UTF-16LE encoding when that has an even number of
    bytes: the zero byte [to_unicode] adds is the byte the odd-length trim
    of [from_unicode] removes.  When the encoding has an odd number of bytes
    nothing is trimmed and the added zero byte is decoded with it. *)
Theorem from_unicode_undoes_to_unicode (s : lisp_string) w :
  let encoded := code_convert_string_norecord rt s Qutf_16_le true in
  from_unicode rt (Lstr (snd (to_unicode rt s))) w =
    (Ok (Lstr (code_convert_string_norecord rt
                 {| s_data := if Z.even (SBYTES encoded) then s_data encoded
                              else s_data encoded ++ [NUL];
                    s_multibyte := false |}
                 Qutf_16_le false)),
     w).
Proof.
  intros encoded. rewrite from_unicode_run. unfold finish.
  pose proof (to_unicode_data rt s) as Hdata. fold encoded in Hdata.
  assert (Hmb : STRING_MULTIBYTE (snd (to_unicode rt s)) = false)
    by reflexivity.
  rewrite Hmb. cbn [negb andb].
  assert (Hodd : Z.odd (SBYTES (snd (to_unicode rt s)))
                 = Z.even (SBYTES encoded)).
  { unfold SBYTES. rewrite Hdata, length_app, Nat2Z.inj_add, Z.odd_add.
    rewrite <- Z.negb_even. by destruct (Z.even _). }
  rewrite Hodd. unfold without_final_byte; rewrite Hdata, removelast_last.
  destruct (Z.even (SBYTES encoded)); [reflexivity|].
  do 4 f_equal. destruct (snd (to_unicode rt s)) as [data mb].
  simpl in *. by subst.
Qed.

(** X9: with no system-call failure pending and a facility that follows the
    sizing protocol in the default directory, an entry point returns, for
    any ABSOLUTE-P: the result is built from all the bytes the facility
    stored but the last (for a conversion to Windows, decoded from
    UTF-16LE; from Windows, file-decoded), and the process is back in the
    directory it started in. *)
Theorem conversion_succeeds d path a w (out : list byte) :
  let run := convert_path rt os d path a w in
  k_faults (w_kernel w) = [] ->
  converts os (conv_flags (direction_what d) (absolute_flag a))
    (conversion_directory rt (w_kernel w)) (source_bytes rt d path) out ->
  least_length d <= Z.of_nat (length out) ->
  fst run = Ok (finish rt d {| s_data := removelast out; s_multibyte := false |})
  /\ k_cwd (w_kernel (snd run)) = k_cwd (w_kernel w).
Proof.
  intros run Hclean Hconv Hleast. subst run.
  rewrite convert_path_shape. rewrite <- source_memory_bytes in Hconv.
  destruct (two_call_convert_succeeds rt os (direction_what d)
              (least_length d) (source_memory rt d path) (finish rt d)
              (absolute_flag a) w out Hclean Hconv) as (Hres & _ & Hcwd).
  - intros ->. destruct d; simpl in Hleast; lia.
  - exact Hleast.
  - by split.
Qed.

(** X10: when [chdir_to_default_directory] returns, the process is in the
    default directory, the handler for the descriptor it opened is on top of
    the specpdl, and that descriptor refers to the directory the process
    was in.  When it signals, the process has not moved. *)
Theorem guard_postcondition w :
  let run := chdir_to_default_directory rt os w in
  let fd := fst (sys_open_dot (w_kernel w)) in
  match fst run with
  | Ok _ =>
      k_cwd (w_kernel (snd run)) = conversion_directory rt (w_kernel w) /\
      w_specpdl (snd run) =
        Unwind_protect H_fchdir_unwind (make_number fd) :: w_specpdl w /\
      k_fds (w_kernel (snd run)) !! fd = Some (k_cwd (w_kernel w))
  | Err _ => k_cwd (w_kernel (snd run)) = k_cwd (w_kernel w)
  end.
Proof.
  intros run fd. subst run fd.
  pose proof (chdir_to_default_directory_run rt os w) as H.
  cbv zeta in H. rewrite H. clear H.
  destruct (fst (sys_open_dot (w_kernel w)) =? -1) eqn:Hopen; cbn [fst snd].
  - apply sys_open_dot_cwd.
  - apply Z.eqb_neq in Hopen.
    destruct (fst (sys_chdir _ _) =? 0) eqn:Hchdir; cbn [w_kernel w_specpdl].
    + split; [|split; [reflexivity|by apply saved_through_chdir]].
      apply conversion_directory_reached. by rewrite Hchdir.
    + apply chdir_failed_cwd. by rewrite Hchdir.
Qed.

(** X11: [from_unicode] signals wrong-type-argument, with the predicate
    [stringp] and the offending value, exactly when its argument is not a
    string; on a string it returns the decoding.  Either way it leaves the
    process state, the specpdl and the log untouched. *)
Theorem from_unicode_checks_string (x : Lisp_Object) w :
  from_unicode rt x w =
    (if STRINGP x then Ok (finish rt To_windows (XSTRING x))
     else Err (Sig_wrong_type_argument "stringp" x),
     w).
Proof.
  destruct x; try reflexivity. apply from_unicode_run.
Qed.

End Protocol.

Lemma facility_runs_in_default_directory_witness :
  let w := Sim.start [] in
  let c := Ev_conv_path 257 (bytes "foo/bar" ++ [NUL]) true 0 16 in
  let f := Ev_conv_path 257 (bytes "foo/bar" ++ [NUL]) false 16 0 in
  conv_path_calls
    (events_since w (snd (convert_path Sim.rt Sim.os To_windows Sim.foo_bar
                            Qnil w))) = [c; f] /\
  conversion_directory Sim.rt (w_kernel w) = bytes "/tmp/" /\
  event_ret c =
    cr_ret (conv_path Sim.os 257 (bytes "/tmp/") (bytes "foo/bar" ++ [NUL])
              true 0).
Proof.
  intros w c f.
  assert (H : conv_path_calls
                (events_since w
                   (snd (convert_path Sim.rt Sim.os To_windows Sim.foo_bar
                           Qnil w))) = [c; f]) by (vm_compute; reflexivity).
  split; [exact H|]. split; [reflexivity|].
  exact (proj1 (facility_runs_in_default_directory Sim.rt Sim.os To_windows
                  Sim.foo_bar Qnil w c [f] H)).
Defined.

Lemma short_query_reports_errno_witness :
  let w := World (set_errno Sim.EACCES (w_kernel (Sim.start []))) [] [] in
  let os := Sim.stub 1 in
  let o := sys_open_dot (w_kernel w) in
  let c := sys_chdir (SDATA (ENCODE_FILE Sim.rt (target_directory Sim.rt)))
             (snd o) in
  let q := conv_path os (conv_flags (direction_what To_windows)
                           (absolute_flag Qnil))
             (conversion_directory Sim.rt (w_kernel w))
             (source_bytes Sim.rt To_windows Sim.foo_bar) true 0 in
  fst o <> -1 /\ fst c = 0 /\ cr_ret q < least_length To_windows /\
  cr_errno q = None /\
  fst (convert_path Sim.rt os To_windows Sim.foo_bar Qnil w) =
    Err (Sig_error "cygwin_conv_path: Permission denied").
Proof.
  intros w os o c q.
  assert (H1 : fst o <> -1) by (vm_compute; discriminate).
  assert (H2 : fst c = 0) by reflexivity.
  assert (H3 : cr_ret q < least_length To_windows) by (vm_compute; reflexivity).
  split; [exact H1|]. split; [exact H2|]. split; [exact H3|].
  split; [reflexivity|].
  exact (short_query_reports_errno Sim.rt os To_windows Sim.foo_bar Qnil w
           H1 H2 H3).
Defined.

Lemma conversion_succeeds_witness :
  let w := Sim.start [] in
  let out := bytes "foo/bar" ++ [NUL] in
  let run := convert_path Sim.rt Sim.os From_windows Sim.foo_bar_native Qt w in
  k_faults (w_kernel w) = [] /\
  converts Sim.os (conv_flags (direction_what From_windows) (absolute_flag Qt))
    (conversion_directory Sim.rt (w_kernel w))
    (source_bytes Sim.rt From_windows Sim.foo_bar_native) out /\
  least_length From_windows <= Z.of_nat (length out) /\
  fst run = Ok (Lstr Sim.foo_bar) /\
  k_cwd (w_kernel (snd run)) = k_cwd (w_kernel w).
Proof.
  intros w out run.
  assert (H1 : k_faults (w_kernel w) = []) by reflexivity.
  assert (H2 : converts Sim.os
                 (conv_flags (direction_what From_windows) (absolute_flag Qt))
                 (conversion_directory Sim.rt (w_kernel w))
                 (source_bytes Sim.rt From_windows Sim.foo_bar_native) out)
    by (vm_compute; auto).
  assert (H3 : least_length From_windows <= Z.of_nat (length out))
    by (vm_compute; discriminate).
  split; [exact H1|]. split; [exact H2|]. split; [exact H3|].
  exact (conversion_succeeds Sim.rt Sim.os From_windows Sim.foo_bar_native Qt
           w out H1 H2 H3).
Defined.

(** The handler's [fchdir] fails after a failed [chdir]: the process has not
    moved; after a successful [chdir]: it stays in the default directory. *)
Example final_directory_computes :
  let path := Sim.foo_bar in
  let stay :=
    catching (convert_path Sim.rt Sim.os To_windows path Qnil)
             (Sim.start [0; Sim.ENOENT; Sim.EACCES]) in
  let moved :=
    catching (convert_path Sim.rt Sim.os To_windows path Qnil)
             (Sim.start [0; 0; Sim.EACCES]) in
  k_cwd (w_kernel (snd stay)) = bytes "/home/u" /\
  k_cwd (w_kernel (snd moved)) = bytes "/tmp/".
Proof. vm_compute. split; reflexivity. Qed.
